(** * markdown-icons: the IconFonts extension for Python-Markdown

    A shallow embedding of [iconfonts.py]: the token pattern [ICON_RE], the
    inline processor [IconFontsPattern] with its [handleMatch], and the
    extension's [extendMarkdown].  The behaviour of the libraries the module
    calls ([re], [markdown.util.Registry], [xml.etree.ElementTree]) is
    modelled as far as the module uses it.

    Characters are 8-bit code points ([ascii]); strings are [string]. *)

From Stdlib Require Import String Ascii List Bool Arith Lia.
Import ListNotations.
Open Scope string_scope.

(** ** Python built-ins used by the module *)

Module Py.

(** [s.split(sep)] for a one-character separator: never the empty list. *)
Fixpoint split (sep : ascii) (s : string) : list string :=
  match s with
  | EmptyString => [EmptyString]
  | String c t =>
      if Ascii.eqb c sep then EmptyString :: split sep t
      else match split sep t with
           | [] => [String c EmptyString]
           | w :: ws => String c w :: ws
           end
  end.

(** [sep.join(xs)] *)
Definition join (sep : string) (xs : list string) : string :=
  String.concat sep xs.

(** Truthiness of a [str]: non-empty. *)
Definition truthy (s : string) : bool :=
  match s with
  | EmptyString => false
  | String _ _ => true
  end.

(** [filter(None, xs)] on a list of strings keeps the truthy ones. *)
Definition filter_None (xs : list string) : list string :=
  filter truthy xs.

(** [s.rstrip(c)] for a one-character set. *)
Fixpoint rstrip (c : ascii) (s : string) : string :=
  match s with
  | EmptyString => EmptyString
  | String a t =>
      match rstrip c t with
      | EmptyString => if Ascii.eqb a c then EmptyString else String a EmptyString
      | String b u => String a (String b u)
      end
  end.

(** How an f-string renders a value that is a [str] or [None]. *)
Definition format (v : option string) : string :=
  match v with
  | Some s => s
  | None => "None"
  end.

(** The exceptions that can escape the module. *)
Inductive exn : Type :=
| re_error (msg : string)
| KeyError (key : string)
| NotModelled.

Inductive result (A : Type) : Type :=
| Ok (a : A)
| Raise (e : exn).

Arguments Ok {A} a.
Arguments Raise {A} e.

Definition bind {A B : Type} (m : result A) (f : A -> result B) : result B :=
  match m with
  | Ok a => f a
  | Raise e => Raise e
  end.

(** A [dict] keeps insertion order; assignment to a present key keeps the
    key's place. *)
Definition dict (V : Type) : Type := list (string * V).

Fixpoint dict_set {V : Type} (d : dict V) (k : string) (v : V) : dict V :=
  match d with
  | [] => [(k, v)]
  | (k', v') :: d' =>
      if String.eqb k' k then (k', v) :: d' else (k', v') :: dict_set d' k v
  end.

Fixpoint dict_get {V : Type} (d : dict V) (k : string) : option V :=
  match d with
  | [] => None
  | (k', v') :: d' => if String.eqb k' k then Some v' else dict_get d' k
  end.

(** [d[k]] *)
Definition dict_item {V : Type} (d : dict V) (k : string) : result V :=
  match dict_get d k with
  | Some v => Ok v
  | None => Raise (KeyError k)
  end.

Definition dict_values {V : Type} (d : dict V) : list V := map snd d.

Definition dict_items {V : Type} (d : dict V) : list (string * V) := d.

End Py.

Notation "x <- m ;; k" := (Py.bind m (fun x => k))
  (at level 61, m at next level, right associativity).

(** ** The [re] module, as far as the patterns of this module need it *)

Module Re.

(** Parsed patterns.  [In neg items] is a character set of inclusive ranges;
    [Any] is [.] under [re.DOTALL], which is how [InlineProcessor] compiles. *)
Inductive regex : Type :=
| Eps
| Lit (c : ascii)
| Any
| In (neg : bool) (items : list (ascii * ascii))
| Cat (r1 r2 : regex)
| Alt (r1 r2 : regex)
| Star (r : regex)
| Plus (r : regex)
| Opt (r : regex)
| Group (name : option string) (r : regex).

Fixpoint mkseq (atoms : list regex) : regex :=
  match atoms with
  | [] => Eps
  | [a] => a
  | a :: rest => Cat a (mkseq rest)
  end.

Fixpoint mkalt (branches : list regex) : regex :=
  match branches with
  | [] => Eps
  | [b] => b
  | b :: rest => Alt b (mkalt rest)
  end.

(** *** Parsing a pattern string *)

Inductive set_pending : Type :=
| PNone
| PChar (a : ascii)
| PRange (a : ascii).

Inductive pmode : Type :=
| MNormal
| MEscape
| MOpen
| MOpenQ
| MOpenQP
| MName (acc : string)
| MSetOpen
| MSet (neg : bool) (items : list (ascii * ascii)) (pend : set_pending).

Inductive gkind : Type :=
| GCapture (name : option string)
| GNonCapture.

(** The parser reads the pattern one character at a time.  [alts] and [seq]
    hold the finished branches and the atoms of the current branch, newest
    first; [stack] holds the same for every group still open. *)
Record pstate : Type := mkPstate {
  alts : list regex;
  seq : list regex;
  quant : bool;
  stack : list (gkind * list regex * list regex);
  names : list string;
  mode : pmode
}.

Inductive presult : Type :=
| POk (st : pstate)
| PErr (msg : string)
| PUnsupported.

Definition initial : pstate := mkPstate [] [] false [] [] MNormal.

Definition push_atom (st : pstate) (a : regex) : pstate :=
  mkPstate (alts st) (a :: seq st) false (stack st) (names st) MNormal.

Definition set_mode (st : pstate) (m : pmode) : pstate :=
  mkPstate (alts st) (seq st) (quant st) (stack st) (names st) m.

Definition open_group (st : pstate) (g : gkind) : pstate :=
  mkPstate [] [] false ((g, alts st, seq st) :: stack st)
    (match g with
     | GCapture (Some n) => n :: names st
     | _ => names st
     end) MNormal.

Definition branches (st : pstate) : regex :=
  mkalt (rev (mkseq (rev (seq st)) :: alts st)).

Definition close_group (st : pstate) : presult :=
  match stack st with
  | [] => PErr "unbalanced parenthesis"
  | (g, palts, pseq) :: rest =>
      let body := branches st in
      let atom := match g with
                  | GCapture n => Group n body
                  | GNonCapture => body
                  end in
      POk (mkPstate palts (atom :: pseq) false rest (names st) MNormal)
  end.

Definition quantify (st : pstate) (q : regex -> regex) : presult :=
  match seq st with
  | [] => PErr "nothing to repeat"
  | a :: rest =>
      if quant st then PUnsupported
      else POk (mkPstate (alts st) (q a :: rest) true (stack st) (names st) MNormal)
  end.

Definition is_digit (c : ascii) : bool :=
  Ascii.leb "0" c && Ascii.leb c "9".

Definition is_alpha (c : ascii) : bool :=
  (Ascii.leb "a" c && Ascii.leb c "z") || (Ascii.leb "A" c && Ascii.leb c "Z").

Definition is_alnum (c : ascii) : bool := is_alpha c || is_digit c.

(** The characters that stand for themselves outside a set. *)
Definition plain (c : ascii) : bool :=
  negb (existsb (Ascii.eqb c)
          ["\"; "("; ")"; "|"; "*"; "+"; "?"; "["; "."; "^"; "$"; "{"]%char).

Definition step_normal (st : pstate) (c : ascii) : presult :=
  if Ascii.eqb c "\" then POk (set_mode st MEscape)
  else if Ascii.eqb c "(" then POk (set_mode st MOpen)
  else if Ascii.eqb c ")" then close_group st
  else if Ascii.eqb c "|" then
    POk (mkPstate (mkseq (rev (seq st)) :: alts st) [] false
           (stack st) (names st) MNormal)
  else if Ascii.eqb c "*" then quantify st Star
  else if Ascii.eqb c "+" then quantify st Plus
  else if Ascii.eqb c "?" then quantify st Opt
  else if Ascii.eqb c "[" then POk (set_mode st MSetOpen)
  else if Ascii.eqb c "." then POk (push_atom st Any)
  else if Ascii.eqb c "^" || Ascii.eqb c "$" || Ascii.eqb c "{" then PUnsupported
  else POk (push_atom st (Lit c)).

Definition flush (items : list (ascii * ascii)) (pend : set_pending)
  : list (ascii * ascii) :=
  match pend with
  | PNone => items
  | PChar a => (a, a) :: items
  | PRange a => ("-"%char, "-"%char) :: (a, a) :: items
  end.

Definition step_set (st : pstate) (neg : bool) (items : list (ascii * ascii))
  (pend : set_pending) (c : ascii) : presult :=
  if Ascii.eqb c "]" then
    match items, pend with
    | [], PNone => POk (set_mode st (MSet neg items (PChar c)))
    | _, _ => POk (push_atom st (In neg (rev (flush items pend))))
    end
  else if Ascii.eqb c "\" || Ascii.eqb c "[" then PUnsupported
  else
    match pend with
    | PNone => POk (set_mode st (MSet neg items (PChar c)))
    | PChar a =>
        if Ascii.eqb c "-" then POk (set_mode st (MSet neg items (PRange a)))
        else POk (set_mode st (MSet neg ((a, a) :: items) (PChar c)))
    | PRange a =>
        if Ascii.leb a c then POk (set_mode st (MSet neg ((a, c) :: items) PNone))
        else PErr "bad character range"
    end.

Fixpoint all_chars (p : ascii -> bool) (s : string) : bool :=
  match s with
  | EmptyString => true
  | String c t => p c && all_chars p t
  end.

Definition is_identifier (n : string) : bool :=
  match n with
  | EmptyString => false
  | String c t =>
      (is_alpha c || Ascii.eqb c "_")
      && all_chars (fun a => is_alnum a || Ascii.eqb a "_") t
  end.

Definition step (st : pstate) (c : ascii) : presult :=
  match mode st with
  | MNormal => step_normal st c
  | MEscape =>
      if is_alnum c then PUnsupported else POk (push_atom st (Lit c))
  | MOpen =>
      if Ascii.eqb c "?" then POk (set_mode st MOpenQ)
      else step_normal (open_group st (GCapture None)) c
  | MOpenQ =>
      if Ascii.eqb c ":" then POk (open_group st GNonCapture)
      else if Ascii.eqb c "P" then POk (set_mode st MOpenQP)
      else PUnsupported
  | MOpenQP =>
      if Ascii.eqb c "<" then POk (set_mode st (MName EmptyString))
      else PUnsupported
  | MName acc =>
      if Ascii.eqb c ">" then
        match acc with
        | EmptyString => PErr "missing group name"
        | _ =>
            if negb (is_identifier acc) then PUnsupported
            else if existsb (String.eqb acc) (names st) then
              PErr "redefinition of group name"
            else POk (open_group st (GCapture (Some acc)))
        end
      else POk (set_mode st (MName (acc ++ String c EmptyString)))
  | MSetOpen =>
      if Ascii.eqb c "^" then POk (set_mode st (MSet true [] PNone))
      else step_set st false [] PNone c
  | MSet neg items pend => step_set st neg items pend c
  end.

Fixpoint steps (st : pstate) (s : string) : presult :=
  match s with
  | EmptyString => POk st
  | String c t =>
      match step st c with
      | POk st' => steps st' t
      | other => other
      end
  end.

(** A compiled pattern: the parsed expression and its named groups, in the
    order they open. *)
Record Pattern : Type := mkPattern {
  expr : regex;
  groupnames : list string
}.

Definition finish (st : pstate) : Py.result Pattern :=
  match mode st with
  | MNormal =>
      match stack st with
      | [] => Py.Ok (mkPattern (branches st) (rev (names st)))
      | _ :: _ => Py.Raise (Py.re_error "missing ), unterminated subpattern")
      end
  | MEscape => Py.Raise (Py.re_error "bad escape (end of pattern)")
  | MOpen | MOpenQ | MOpenQP =>
      Py.Raise (Py.re_error "missing ), unterminated subpattern")
  | MName _ => Py.Raise (Py.re_error "missing >, unterminated name")
  | MSetOpen | MSet _ _ _ => Py.Raise (Py.re_error "unterminated character set")
  end.

(** [re.compile(pattern, re.DOTALL | re.UNICODE)] *)
Definition compile (pattern : string) : Py.result Pattern :=
  match steps initial pattern with
  | POk st => finish st
  | PErr msg => Py.Raise (Py.re_error msg)
  | PUnsupported => Py.Raise Py.NotModelled
  end.

(** *** Matching

    A backtracking matcher in continuation-passing style: greedy repeats,
    left-to-right alternatives, and the groups set so far threaded through,
    so that a branch that fails leaves no trace in them. *)

Definition caps : Type := Py.dict string.

Definition cont : Type := string -> caps -> option (string * caps).

Definition in_items (items : list (ascii * ascii)) (c : ascii) : bool :=
  existsb (fun i => Ascii.leb (fst i) c && Ascii.leb c (snd i)) items.

Definition in_set (neg : bool) (items : list (ascii * ascii)) (c : ascii) : bool :=
  xorb neg (in_items items c).

(** The text between the start [s] of a group and the rest [s1] left after it. *)
Definition consumed (s s1 : string) : string :=
  String.substring 0 (String.length s - String.length s1) s.

(** A greedy repeat of [m]: one more round first, the continuation after.
    A round that consumes nothing ends the repeat. *)
Fixpoint star_loop (m : cont -> cont) (n : nat) (k : cont) (s : string) (c : caps)
  : option (string * caps) :=
  match n with
  | 0 => k s c
  | S n' =>
      match m (fun s1 c1 =>
                 if Nat.ltb (String.length s1) (String.length s)
                 then star_loop m n' k s1 c1 else None) s c with
      | Some x => Some x
      | None => k s c
      end
  end.

Fixpoint matchk (r : regex) (k : cont) (s : string) (c : caps) {struct r}
  : option (string * caps) :=
  match r with
  | Eps => k s c
  | Lit a =>
      match s with
      | String b t => if Ascii.eqb a b then k t c else None
      | EmptyString => None
      end
  | Any =>
      match s with
      | String _ t => k t c
      | EmptyString => None
      end
  | In neg items =>
      match s with
      | String b t => if in_set neg items b then k t c else None
      | EmptyString => None
      end
  | Cat r1 r2 => matchk r1 (matchk r2 k) s c
  | Alt r1 r2 =>
      match matchk r1 k s c with
      | Some x => Some x
      | None => matchk r2 k s c
      end
  | Star r1 => star_loop (matchk r1) (String.length s) k s c
  | Plus r1 =>
      matchk r1 (fun s1 c1 => star_loop (matchk r1) (String.length s1) k s1 c1) s c
  | Opt r1 =>
      match matchk r1 k s c with
      | Some x => Some x
      | None => k s c
      end
  | Group None r1 => matchk r1 k s c
  | Group (Some n) r1 =>
      matchk r1 (fun s1 c1 => k s1 (Py.dict_set c1 n (consumed s s1))) s c
  end.

(** What the matcher can do, as a relation: [Matches r s c s1 c1] when [r]
    can consume a prefix of [s], leaving [s1], and turn the groups [c] into
    [c1]. *)
Inductive Matches : regex -> string -> caps -> string -> caps -> Prop :=
| MEps s c : Matches Eps s c s c
| MLit a s c : Matches (Lit a) (String a s) c s c
| MAny a s c : Matches Any (String a s) c s c
| MIn neg items a s c :
    in_set neg items a = true -> Matches (In neg items) (String a s) c s c
| MCat r1 r2 s c s1 c1 s2 c2 :
    Matches r1 s c s1 c1 -> Matches r2 s1 c1 s2 c2 ->
    Matches (Cat r1 r2) s c s2 c2
| MAltL r1 r2 s c s1 c1 : Matches r1 s c s1 c1 -> Matches (Alt r1 r2) s c s1 c1
| MAltR r1 r2 s c s1 c1 : Matches r2 s c s1 c1 -> Matches (Alt r1 r2) s c s1 c1
| MStarNil r s c : Matches (Star r) s c s c
| MStarCons r s c s1 c1 s2 c2 :
    Matches r s c s1 c1 -> Matches (Star r) s1 c1 s2 c2 ->
    Matches (Star r) s c s2 c2
| MPlus r s c s1 c1 s2 c2 :
    Matches r s c s1 c1 -> Matches (Star r) s1 c1 s2 c2 ->
    Matches (Plus r) s c s2 c2
| MOptNone r s c : Matches (Opt r) s c s c
| MOptSome r s c s1 c1 : Matches r s c s1 c1 -> Matches (Opt r) s c s1 c1
| MGroupNone r s c s1 c1 :
    Matches r s c s1 c1 -> Matches (Group None r) s c s1 c1
| MGroupSome n r s c s1 c1 :
    Matches r s c s1 c1 ->
    Matches (Group (Some n) r) s c s1 (Py.dict_set c1 n (consumed s s1)).

(** A match anchored at the start of [s]: what is left of [s], and the groups. *)
Definition match_here (r : regex) (s : string) : option (string * caps) :=
  matchk r (fun s1 c1 => Some (s1, c1)) s [].

(** A match object: the span of group 0 and [groupdict()], which has every
    named group of the pattern, [None] for those that took no part. *)
Record Match : Type := mkMatch {
  m_start : nat;
  m_end : nat;
  m_groupdict : Py.dict (option string)
}.

Definition groupdict (p : Pattern) (c : caps) : Py.dict (option string) :=
  map (fun n => (n, Py.dict_get c n)) (groupnames p).

(** The leftmost match in [s], which begins at offset [i] of the data. *)
Fixpoint search_from (p : Pattern) (s : string) (i : nat) : option Match :=
  match match_here (expr p) s with
  | Some (rest, c) =>
      Some (mkMatch i (i + (String.length s - String.length rest)) (groupdict p c))
  | None =>
      match s with
      | EmptyString => None
      | String _ t => search_from p t (S i)
      end
  end.

Fixpoint skip (n : nat) (s : string) : string :=
  match n, s with
  | 0, _ => s
  | S n', String _ t => skip n' t
  | S _, EmptyString => EmptyString
  end.

(** [pattern.search(data, pos)], which is also the first item of
    [pattern.finditer(data, pos)]; a [pos] past the end counts as the end. *)
Definition search (p : Pattern) (data : string) (pos : nat) : option Match :=
  let pos := Nat.min pos (String.length data) in
  search_from p (skip pos data) pos.

End Re.

(** ** [xml.etree.ElementTree.Element] *)

Module etree.

#[local] Unset Elimination Schemes.

Inductive Element : Type :=
  mkElement (tag : string) (attrib : Py.dict string) (text : option string)
            (children : list Element).

#[local] Set Elimination Schemes.

Definition tag (e : Element) : string :=
  match e with mkElement t _ _ _ => t end.

Definition attrib (e : Element) : Py.dict string :=
  match e with mkElement _ a _ _ => a end.

Definition text (e : Element) : option string :=
  match e with mkElement _ _ x _ => x end.

Definition children (e : Element) : list Element :=
  match e with mkElement _ _ _ ch => ch end.

(** [etree.Element(tag)] *)
Definition new (t : string) : Element := mkElement t [] None [].

(** [el.set(key, value)] *)
Definition set (e : Element) (key value : string) : Element :=
  match e with
  | mkElement t a x ch => mkElement t (Py.dict_set a key value) x ch
  end.

End etree.

(** ** [markdown.util.Registry] *)

Module Registry.

Section Items.

Variable A : Type.

Record entry : Type := mkEntry {
  e_name : string;
  e_item : A;
  e_priority : nat
}.

(** Entries in the order they were registered. *)
Definition t : Type := list entry.

Definition deregister (reg : t) (name : string) : t :=
  filter (fun e => negb (String.eqb (e_name e) name)) reg.

(** [register(item, name, priority)]: an item already registered under
    [name] is removed first. *)
Definition register (reg : t) (item : A) (name : string) (priority : nat) : t :=
  (deregister reg name ++ [mkEntry name item priority])%list.

Fixpoint get (reg : t) (name : string) : option A :=
  match reg with
  | [] => None
  | e :: rest => if String.eqb (e_name e) name then Some (e_item e) else get rest name
  end.

Definition registered_names (reg : t) : list string := map e_name reg.

End Items.

Arguments mkEntry {A} _ _ _.
Arguments e_name {A} _.
Arguments e_item {A} _.
Arguments e_priority {A} _.
Arguments deregister {A} _ _.
Arguments register {A} _ _ _ _.
Arguments get {A} _ _.
Arguments registered_names {A} _.

End Registry.

(** ** iconfonts.py *)

Module IconFonts.

(** [class IconFontsPattern(InlineProcessor)]: the compiled pattern that
    [InlineProcessor.__init__] keeps, and the two fields of the class. *)
Record IconFontsPattern : Type := mkIconFontsPattern {
  compiled_re : Re.Pattern;
  _base : string;
  _prefix : string
}.

(** [IconFontsPattern.__init__(pattern, md, base, prefix)] *)
Definition IconFontsPattern_init (pattern : string) (base prefix : string)
  : Py.result IconFontsPattern :=
  re <- Re.compile pattern ;;
  Py.Ok (mkIconFontsPattern re base prefix).

(** [IconFontsPattern.handleMatch(m, data)] *)
Definition handleMatch (self : IconFontsPattern) (m : Re.Match) (data : string)
  : Py.result (etree.Element * nat * nat) :=
  let match_dict := Re.m_groupdict m in
  let el := etree.new "i" in
  name <- Py.dict_item match_dict "name" ;;
  let classes : Py.dict string := [] in
  let classes :=
    if Py.truthy (_base self) then Py.dict_set classes "base" (_base self)
    else classes in
  let classes := Py.dict_set classes "name" (_prefix self ++ Py.format name) in
  mod_ <- Py.dict_item match_dict "mod" ;;
  let classes :=
    match mod_ with
    | Some raw =>
        Py.dict_set classes "mod"
          (Py.join " "
             (map (fun c => _prefix self ++ c)
                (Py.filter_None (Py.split "," raw))))
    | None => classes
    end in
  user_mod <- Py.dict_item match_dict "user_mod" ;;
  let classes :=
    match user_mod with
    | Some raw =>
        Py.dict_set classes "user_mod"
          (Py.join " " (Py.filter_None (Py.split "," raw)))
    | None => classes
    end in
  let el := etree.set el "class" (Py.join " " (Py.dict_values classes)) in
  let el := etree.set el "aria-hidden" "true" in
  Py.Ok (el, Re.m_start m, Re.m_end m).

Definition ICON_RE : string :=
  "(?P<name>[a-zA-Z0-9-]+)(:(?P<mod>[a-zA-Z0-9-]+(,[a-zA-Z0-9-]+)*)?(:(?P<user_mod>[a-zA-Z0-9-]+(,[a-zA-Z0-9-]+)*)?)?)?;".

(** The configuration of [IconFontsExtension], after [__init__] has applied
    the keyword arguments over the defaults. *)
Record Config : Type := mkConfig {
  prefix : string;
  base : string;
  prefix_base_pairs : Py.dict string
}.

Definition default_config : Config := mkConfig "icon-" "" [].

(** The part of [Markdown] the extension touches. *)
Record Markdown : Type := mkMarkdown {
  inlinePatterns : Registry.t IconFontsPattern
}.

Definition register_pair (md : Py.result Markdown) (pair : string * string)
  : Py.result Markdown :=
  md <- md ;;
  let '(prefix, base) := pair in
  p <- IconFontsPattern_init ("&" ++ prefix ++ ICON_RE) base prefix ;;
  Py.Ok (mkMarkdown
           (Registry.register (inlinePatterns md) p
              ("iconfonts_" ++ Py.rstrip "-" prefix) 175)).

(** [IconFontsExtension.extendMarkdown(md)] *)
Definition extendMarkdown (self : Config) (md : Markdown) : Py.result Markdown :=
  p <- IconFontsPattern_init ("&" ++ prefix self ++ ICON_RE) (base self) (prefix self) ;;
  let md := mkMarkdown (Registry.register (inlinePatterns md) p "iconfonts" 175) in
  fold_left register_pair (Py.dict_items (prefix_base_pairs self)) (Py.Ok md).

(** How the host's inline tree processor drives an [InlineProcessor]: the
    first match of the compiled pattern at or after [startIndex] is handed
    to [handleMatch]; without a match the text is left as it is. *)
Definition apply_pattern (p : IconFontsPattern) (data : string) (startIndex : nat)
  : Py.result (option (etree.Element * nat * nat)) :=
  match Re.search (compiled_re p) data startIndex with
  | Some m => r <- handleMatch p m data ;; Py.Ok (Some r)
  | None => Py.Ok None
  end.

(** The value of a keyword argument: a [str] or a [dict] of strings. *)
Inductive option_value : Type :=
| OStr (s : string)
| ODict (d : Py.dict string).

(** [Extension.setConfig(key, value)] on the [config] that
    [IconFontsExtension.__init__] builds: [self.config[key]] raises
    [KeyError] for a key that is not there.  None of the three defaults is a
    [bool] or [None], so the value is stored as it is; a value of the other
    type is outside the model. *)
Definition setConfig (self : Config) (key : string) (value : option_value)
  : Py.result Config :=
  if String.eqb key "prefix" then
    match value with
    | OStr s => Py.Ok (mkConfig s (base self) (prefix_base_pairs self))
    | ODict _ => Py.Raise Py.NotModelled
    end
  else if String.eqb key "base" then
    match value with
    | OStr s => Py.Ok (mkConfig (prefix self) s (prefix_base_pairs self))
    | ODict _ => Py.Raise Py.NotModelled
    end
  else if String.eqb key "prefix_base_pairs" then
    match value with
    | ODict d => Py.Ok (mkConfig (prefix self) (base self) d)
    | OStr _ => Py.Raise Py.NotModelled
    end
  else Py.Raise (Py.KeyError key).

(** [Extension.setConfigs(items)] *)
Definition setConfigs (self : Config) (items : Py.dict option_value)
  : Py.result Config :=
  fold_left (fun acc kv => cfg <- acc ;; setConfig cfg (fst kv) (snd kv))
    (Py.dict_items items) (Py.Ok self).

(** [IconFontsExtension.__init__]: the defaults, then the keyword
    arguments over them. *)
Definition IconFontsExtension_init (kwargs : Py.dict option_value)
  : Py.result Config :=
  setConfigs default_config kwargs.

(** [makeExtension], which passes its keyword arguments on. *)
Definition makeExtension (kwargs : Py.dict option_value) : Py.result Config :=
  IconFontsExtension_init kwargs.

End IconFonts.

Import IconFonts.

(** ** Vocabulary of the statements *)

(** The character class [[a-zA-Z0-9-]] of [ICON_RE]. *)
Definition name_char (c : ascii) : bool :=
  Re.is_alnum c || Ascii.eqb c "-".

(** [[a-zA-Z0-9-]+] *)
Definition valid_name (s : string) : bool :=
  Py.truthy s && Re.all_chars name_char s.

(** The characters a token can hold between its marker and its [;]. *)
Definition body_char (c : ascii) : bool :=
  name_char c || Ascii.eqb c ":" || Ascii.eqb c ",".

(** A marker without characters that are special in a pattern. *)
Definition plain_marker (marker : string) : bool :=
  Re.all_chars Re.plain marker.

Fixpoint contains (c : ascii) (s : string) : bool :=
  match s with
  | EmptyString => false
  | String a t => Ascii.eqb a c || contains c t
  end.

Definition starts_with (c : ascii) (s : string) : bool :=
  match s with
  | EmptyString => false
  | String a _ => Ascii.eqb a c
  end.

Fixpoint ends_with (c : ascii) (s : string) : bool :=
  match s with
  | EmptyString => false
  | String a EmptyString => Ascii.eqb a c
  | String _ t => ends_with c t
  end.

Fixpoint has_double_space (s : string) : bool :=
  match s with
  | EmptyString => false
  | String a t => (Ascii.eqb a " " && starts_with " " t) || has_double_space t
  end.

(** The processor [extendMarkdown] builds for a marker and a base. *)
Definition bound (marker base : string) : Py.result IconFontsPattern :=
  IconFontsPattern_init ("&" ++ marker ++ ICON_RE) base marker.

(** The literal characters of [s], then [r]. *)
Fixpoint lits (s : string) (r : Re.regex) : Re.regex :=
  match s with
  | EmptyString => r
  | String c t => Re.Cat (Re.Lit c) (lits t r)
  end.

(** The atoms the parser holds after reading the plain characters of [s]
    on top of [acc], newest first. *)
Fixpoint lit_atoms (s : string) (acc : list Re.regex) : list Re.regex :=
  match s with
  | EmptyString => acc
  | String c t => lit_atoms t (Re.Lit c :: acc)
  end.

Definition name_set : Re.regex :=
  Re.In false [("a", "z"); ("A", "Z"); ("0", "9"); ("-", "-")]%char.

(** [[a-zA-Z0-9-]+(,[a-zA-Z0-9-]+)*] *)
Definition entries_expr : Re.regex :=
  Re.Cat (Re.Plus name_set)
    (Re.Star (Re.Group None (Re.Cat (Re.Lit ",") (Re.Plus name_set)))).

Definition icon_atoms : list Re.regex :=
  [ Re.Group (Some "name") (Re.Plus name_set);
    Re.Opt (Re.Group None
      (Re.Cat (Re.Lit ":")
        (Re.Cat (Re.Opt (Re.Group (Some "mod") entries_expr))
          (Re.Opt (Re.Group None
            (Re.Cat (Re.Lit ":")
              (Re.Opt (Re.Group (Some "user_mod") entries_expr))))))));
    Re.Lit ";" ].

(** What [ICON_RE] parses to. *)
Definition ICON_expr : Re.regex := Re.mkseq icon_atoms.

(** The class string the specification describes, slot by slot. *)
Definition slots (marker base : string) (name mod_ user_mod : option string)
  : list string :=
  List.app (if Py.truthy base then [base] else [])
    (List.app [marker ++ Py.format name]
       (List.app
          match mod_ with
          | Some raw =>
              [Py.join " " (map (String.append marker)
                              (Py.filter_None (Py.split "," raw)))]
          | None => []
          end
          match user_mod with
          | Some raw => [Py.join " " (Py.filter_None (Py.split "," raw))]
          | None => []
          end)).

(** The class segments of a parsed token, one entry per class. *)
Definition segments (marker base name : string) (mods umods : list string)
  : list string :=
  List.app (if Py.truthy base then [base] else [])
    ((marker ++ name) :: List.app (map (String.append marker) mods) umods).

(** A class segment that can be joined with spaces: non-empty, no space at
    either end and no two spaces in a row. *)
Definition tidy (s : string) : bool :=
  Py.truthy s && negb (starts_with " " s) && negb (ends_with " " s)
  && negb (has_double_space s).

(** What may follow the legal characters of a token that never reaches its
    [;]: the end of the input, or a character that is neither legal nor the
    terminator. *)
Definition unterminated (rest : string) : bool :=
  match rest with
  | EmptyString => true
  | String c _ => negb (body_char c) && negb (Ascii.eqb c ";")
  end.

(** The name a pair of [prefix_base_pairs] is registered under. *)
Definition pair_name (marker : string) : string :=
  "iconfonts_" ++ Py.rstrip "-" marker.

(** The processor of a plain marker. *)
Definition plain_processor (marker base : string) : IconFontsPattern :=
  mkIconFontsPattern
    (Re.mkPattern (lits ("&" ++ marker) ICON_expr) ["name"; "mod"; "user_mod"])
    base marker.

(** One round of the loop of [extendMarkdown] when the marker is plain. *)
Definition register_plain (reg : Registry.t IconFontsPattern)
  (pair : string * string) : Registry.t IconFontsPattern :=
  Registry.register reg (plain_processor (fst pair) (snd pair))
    (pair_name (fst pair)) 175.

(** A marker and a base that bring no delimiter and no stray space into
    the class string. *)
Definition clean_marker (marker : string) : bool :=
  negb (contains "&" marker) && negb (contains ";" marker)
  && negb (starts_with " " marker) && negb (has_double_space marker).

Definition clean_base (base : string) : bool :=
  negb (contains "&" base) && negb (contains ";" base)
  && negb (ends_with " " base) && negb (has_double_space base).

(** [n] hyphens. *)
Fixpoint hyphens (n : nat) : string :=
  match n with
  | 0 => EmptyString
  | S k => String "-" (hyphens k)
  end.

(** The element [handleMatch] emits for a class string. *)
Definition icon (class : string) : etree.Element :=
  etree.mkElement "i" [("class", class); ("aria-hidden", "true")] None [].

(** The text of a token after its marker: the name, then up to two
    colon-led, comma-separated lists, then the [;]. *)
Definition token_body (name : string) (colons : nat) (mods umods : list string)
  : string :=
  name
  ++ match colons with
     | 0 => ""
     | 1 => ":" ++ Py.join "," mods
     | _ => ":" ++ Py.join "," mods ++ ":" ++ Py.join "," umods
     end
  ++ ";".

(** The captured text of a list of entries: [None] when there is none. *)
Definition raw_block (es : list string) : option string :=
  match es with
  | [] => None
  | _ :: _ => Some (Py.join "," es)
  end.

(** A parse of a token: entries are valid names, and a list is empty when
    its colon is missing. *)
Definition well_formed (name : string) (colons : nat) (mods umods : list string)
  : Prop :=
  valid_name name = true
  /\ Forall (fun e => valid_name e = true) mods
  /\ Forall (fun e => valid_name e = true) umods
  /\ (colons = 0 -> mods = [])
  /\ (colons <= 1 -> umods = []).

(** The entries after the first of a comma-separated block, each with the
    comma before it. *)
Fixpoint tail_text (es : list string) : string :=
  match es with
  | [] => EmptyString
  | e :: rest => "," ++ e ++ tail_text rest
  end.

(** The text begins with a character of the name class. *)
Definition name_start (s : string) : bool :=
  match s with
  | EmptyString => false
  | String a _ => name_char a
  end.

(** The groups a token sets, in the order they are set. *)
Definition token_caps (name : string) (mods umods : list string) : Re.caps :=
  List.app [("name", name)]
    (List.app
       match mods with
       | [] => []
       | _ :: _ => [("mod", Py.join "," mods)]
       end
       match umods with
       | [] => []
       | _ :: _ => [("user_mod", Py.join "," umods)]
       end).

(** The whole text of a token of a marker. *)
Definition token_text (marker name : string) (colons : nat)
  (mods umods : list string) : string :=
  "&" ++ marker ++ token_body name colons mods umods.

(** The keys of [kwargs] are among the three options, each with a value of
    its type. *)
Definition well_typed (kv : string * option_value) : bool :=
  match snd kv with
  | OStr _ => String.eqb (fst kv) "prefix" || String.eqb (fst kv) "base"
  | ODict _ => String.eqb (fst kv) "prefix_base_pairs"
  end.

Definition known_option (key : string) : bool :=
  String.eqb key "prefix" || String.eqb key "base"
  || String.eqb key "prefix_base_pairs".

(** ** Facts about strings *)

Lemma append_nil_r (s : string) : s ++ "" = s.
Proof. induction s; simpl; congruence. Qed.

Lemma append_assoc (a b c : string) : (a ++ b) ++ c = a ++ (b ++ c).
Proof. induction a; simpl; congruence. Qed.

Lemma length_append (a b : string) :
  String.length (a ++ b) = String.length a + String.length b.
Proof. induction a; simpl; congruence. Qed.

Lemma append_inv_head (a b c : string) : a ++ b = a ++ c -> b = c.
Proof. induction a; simpl; intros H; [assumption | injection H; auto]. Qed.

Lemma substring_append (w s : string) :
  String.substring 0 (String.length w) (w ++ s) = w.
Proof. induction w; simpl; [destruct s; reflexivity | congruence]. Qed.

Lemma consumed_append (w s : string) : Re.consumed (w ++ s) s = w.
Proof.
  unfold Re.consumed. rewrite length_append.
  replace (String.length w + String.length s - String.length s)
    with (String.length w) by lia.
  apply substring_append.
Qed.

(** ** The matcher does only what [Matches] allows *)

Lemma star_loop_sound (r : Re.regex) (m : Re.cont -> Re.cont) :
  (forall k s c res, m k s c = Some res ->
     exists s1 c1, Re.Matches r s c s1 c1 /\ k s1 c1 = Some res) ->
  forall n k s c res, Re.star_loop m n k s c = Some res ->
    exists s1 c1, Re.Matches (Re.Star r) s c s1 c1 /\ k s1 c1 = Some res.
Proof.
  intros Hm. induction n as [|n IH]; simpl; intros k s c res H.
  - exists s, c. split; [constructor | assumption].
  - destruct (m _ s c) as [x|] eqn:E.
    + injection H as ->.
      apply Hm in E. destruct E as (s1 & c1 & HM & Hk).
      destruct (Nat.ltb _ _); [|discriminate].
      apply IH in Hk. destruct Hk as (s2 & c2 & HS & Hk).
      exists s2, c2. split; [eapply Re.MStarCons; eassumption | assumption].
    + exists s, c. split; [constructor | assumption].
Qed.

Lemma matchk_sound (r : Re.regex) :
  forall k s c res, Re.matchk r k s c = Some res ->
    exists s1 c1, Re.Matches r s c s1 c1 /\ k s1 c1 = Some res.
Proof.
  induction r as [|a| |neg items|r1 IH1 r2 IH2|r1 IH1 r2 IH2|r IH|r IH|r IH|name r IH];
    simpl; intros k s c res H.
  - exists s, c. split; [constructor | assumption].
  - destruct s as [|b t]; [discriminate|].
    destruct (Ascii.eqb a b) eqn:E; [|discriminate].
    apply Ascii.eqb_eq in E. subst b.
    exists t, c. split; [constructor | assumption].
  - destruct s as [|b t]; [discriminate|].
    exists t, c. split; [constructor | assumption].
  - destruct s as [|b t]; [discriminate|].
    destruct (Re.in_set neg items b) eqn:E; [|discriminate].
    exists t, c. split; [constructor; assumption | assumption].
  - apply IH1 in H. destruct H as (s1 & c1 & H1 & H).
    apply IH2 in H. destruct H as (s2 & c2 & H2 & H).
    exists s2, c2. split; [econstructor; eassumption | assumption].
  - destruct (Re.matchk r1 k s c) as [x|] eqn:E.
    + injection H as ->. apply IH1 in E. destruct E as (s1 & c1 & H1 & H).
      exists s1, c1. split; [apply Re.MAltL; assumption | assumption].
    + apply IH2 in H. destruct H as (s1 & c1 & H1 & H).
      exists s1, c1. split; [apply Re.MAltR; assumption | assumption].
  - eapply star_loop_sound; eassumption.
  - apply IH in H. destruct H as (s1 & c1 & H1 & H).
    eapply star_loop_sound in H; [|eassumption].
    destruct H as (s2 & c2 & H2 & H).
    exists s2, c2. split; [econstructor; eassumption | assumption].
  - destruct (Re.matchk r k s c) as [x|] eqn:E.
    + injection H as ->. apply IH in E. destruct E as (s1 & c1 & H1 & H).
      exists s1, c1. split; [apply Re.MOptSome; assumption | assumption].
    + exists s, c. split; [constructor | assumption].
  - destruct name as [n|].
    + apply IH in H. destruct H as (s1 & c1 & H1 & H).
      eexists. eexists. split; [apply Re.MGroupSome; eassumption | assumption].
    + apply IH in H. destruct H as (s1 & c1 & H1 & H).
      exists s1, c1. split; [apply Re.MGroupNone; assumption | assumption].
Qed.

Lemma match_here_sound (r : Re.regex) (s rest : string) (c : Re.caps) :
  Re.match_here r s = Some (rest, c) -> Re.Matches r s [] rest c.
Proof.
  unfold Re.match_here. intros H. apply matchk_sound in H.
  destruct H as (s1 & c1 & HM & H). injection H as -> ->. assumption.
Qed.

Lemma Matches_lits (w : string) (r : Re.regex) :
  forall s c s1 c1, Re.Matches (lits w r) s c s1 c1 ->
    exists t, s = w ++ t /\ Re.Matches r t c s1 c1.
Proof.
  induction w as [|a w IH]; simpl; intros s c s1 c1 H.
  - exists s. split; [reflexivity | assumption].
  - inversion H as [| | | |? ? ? ? s0 c0 ? ? H1 H2| | | | | | | | |]; subst.
    inversion H1; subst.
    apply IH in H2. destruct H2 as (t & -> & H2).
    exists t. split; [reflexivity | assumption].
Qed.

(** ** The tokens [ICON_RE] accepts *)

Lemma name_set_char (a : ascii) :
  Re.in_set false [("a", "z"); ("A", "Z"); ("0", "9"); ("-", "-")]%char a
  = name_char a.
Proof. destruct a as [[] [] [] [] [] [] [] []]; reflexivity. Qed.

Lemma Matches_star_name_set (r : Re.regex) (s : string) (c : Re.caps)
  (s1 : string) (c1 : Re.caps) :
  Re.Matches r s c s1 c1 -> r = Re.Star name_set ->
  c1 = c /\ exists w, Re.all_chars name_char w = true /\ s = w ++ s1.
Proof.
  induction 1 as [| | | | | | |r s c|r s c s1 c1 s2 c2 H1 _ H2 IH| | | | |];
    intros E; try discriminate.
  - split; [reflexivity|]. exists "". split; reflexivity.
  - injection E as ->. destruct (IH eq_refl) as (-> & w & Hw & ->).
    inversion H1 as [| | |? ? a ? ? Ha| | | | | | | | | |]; subst.
    split; [reflexivity|]. exists (String a w). split; [|reflexivity].
    simpl. rewrite <- name_set_char, Ha. assumption.
Qed.

Lemma Matches_plus_name_set (s : string) (c : Re.caps) (s1 : string) (c1 : Re.caps) :
  Re.Matches (Re.Plus name_set) s c s1 c1 ->
  c1 = c /\ exists w, valid_name w = true /\ s = w ++ s1.
Proof.
  intros H.
  inversion H as [| | | | | | | | |? ? ? s0 c0 ? ? H1 H2| | | |]; subst.
  apply Matches_star_name_set in H2; [|reflexivity].
  destruct H2 as (-> & w & Hw & ->).
  inversion H1 as [| | |? ? a ? ? Ha| | | | | | | | | |]; subst.
  split; [reflexivity|]. exists (String a w). split; [|reflexivity].
  unfold valid_name. simpl. rewrite <- name_set_char, Ha. assumption.
Qed.

Lemma Matches_entries_tail (r : Re.regex) (s : string) (c : Re.caps)
  (s1 : string) (c1 : Re.caps) :
  Re.Matches r s c s1 c1 ->
  r = Re.Star (Re.Group None (Re.Cat (Re.Lit ",") (Re.Plus name_set))) ->
  c1 = c /\ exists es, Forall (fun e => valid_name e = true) es
                       /\ forall w, w ++ s = Py.join "," (w :: es) ++ s1.
Proof.
  induction 1 as [| | | | | | |r s c|r s c s1 c1 s2 c2 H1 _ H2 IH| | | | |];
    intros E; try discriminate.
  - split; [reflexivity|]. exists []. split; [constructor | reflexivity].
  - injection E as ->. destruct (IH eq_refl) as (-> & es & Hes & Htail).
    inversion H1 as [| | | | | | | | | | | |? ? ? ? ? H3|]; subst.
    inversion H3 as [| | | |? ? ? ? s0 c0 ? ? H4 H5| | | | | | | | |]; subst.
    inversion H4; subst.
    apply Matches_plus_name_set in H5. destruct H5 as (-> & e & He & ->).
    split; [reflexivity|]. exists (e :: es). split; [constructor; assumption|].
    intros w. specialize (Htail e).
    change (Py.join "," (w :: e :: es)) with (w ++ "," ++ Py.join "," (e :: es)).
    rewrite !append_assoc. rewrite <- Htail. reflexivity.
Qed.

Lemma Matches_entries (s : string) (c : Re.caps) (s1 : string) (c1 : Re.caps) :
  Re.Matches entries_expr s c s1 c1 ->
  c1 = c /\ exists e es, Forall (fun x => valid_name x = true) (e :: es)
                         /\ s = Py.join "," (e :: es) ++ s1.
Proof.
  intros H.
  inversion H as [| | | |? ? ? ? s0 c0 ? ? H1 H2| | | | | | | | |]; subst.
  apply Matches_plus_name_set in H1. destruct H1 as (-> & e & He & ->).
  apply Matches_entries_tail in H2; [|reflexivity].
  destruct H2 as (-> & es & Hes & Htail).
  split; [reflexivity|]. exists e, es. split; [constructor; assumption|].
  apply Htail.
Qed.

Lemma Matches_opt_block (n : string) (s : string) (c : Re.caps)
  (s1 : string) (c1 : Re.caps) :
  Re.Matches (Re.Opt (Re.Group (Some n) entries_expr)) s c s1 c1 ->
  exists es, Forall (fun x => valid_name x = true) es
             /\ s = Py.join "," es ++ s1
             /\ c1 = match es with
                     | [] => c
                     | _ :: _ => Py.dict_set c n (Py.join "," es)
                     end.
Proof.
  intros H.
  inversion H as [| | | | | | | | | |? ? ?|? ? ? ? ? H1| |]; subst.
  - exists []. repeat split. constructor.
  - inversion H1 as [| | | | | | | | | | | | |? ? ? ? ? ? H2]; subst.
    apply Matches_entries in H2. destruct H2 as (-> & e & es & Hes & ->).
    exists (e :: es). rewrite consumed_append. repeat split. assumption.
Qed.

Lemma Matches_ICON (s s1 : string) (c1 : Re.caps) :
  Re.Matches ICON_expr s [] s1 c1 ->
  exists name colons mods umods,
    well_formed name colons mods umods
    /\ s = token_body name colons mods umods ++ s1
    /\ Py.dict_get c1 "name" = Some name
    /\ Py.dict_get c1 "mod" = raw_block mods
    /\ Py.dict_get c1 "user_mod" = raw_block umods.
Proof.
  unfold ICON_expr, icon_atoms. simpl Re.mkseq. intros H.
  inversion H as [| | | |? ? ? ? sa ca ? ? Hname Hrest| | | | | | | | |]; subst.
  clear H.
  inversion Hname as [| | | | | | | | | | | | |? ? ? ? ? ? Hn]; subst.
  apply Matches_plus_name_set in Hn. destruct Hn as (-> & name & Hname' & ->).
  rewrite consumed_append in Hrest. simpl Py.dict_set in Hrest. clear Hname.
  inversion Hrest as [| | | |? ? ? ? sb cb ? ? Hopt Hsemi| | | | | | | | |]; subst.
  clear Hrest. inversion Hsemi; subst. clear Hsemi.
  inversion Hopt as [| | | | | | | | | |? ? ?|? ? ? ? ? H1| |]; subst; clear Hopt.
  { exists name, 0, [], []. unfold well_formed, token_body. simpl.
    repeat split; auto. rewrite append_assoc. reflexivity. }
  inversion H1 as [| | | | | | | | | | | |? ? ? ? ? H2|]; subst; clear H1.
  inversion H2 as [| | | |? ? ? ? sc cc ? ? Hcolon H3| | | | | | | | |]; subst.
  clear H2. inversion Hcolon; subst; clear Hcolon.
  inversion H3 as [| | | |? ? ? ? sd cd ? ? Hmod H4| | | | | | | | |]; subst.
  clear H3. apply Matches_opt_block in Hmod.
  destruct Hmod as (mods & Hmods & -> & ->).
  inversion H4 as [| | | | | | | | | |? ? ?|? ? ? ? ? H5| |]; subst; clear H4.
  { exists name, 1, mods, []. unfold well_formed, token_body.
    repeat split; auto; try discriminate.
    - rewrite !append_assoc. reflexivity.
    - destruct mods; reflexivity.
    - destruct mods; reflexivity.
    - destruct mods; reflexivity. }
  inversion H5 as [| | | | | | | | | | | |? ? ? ? ? H6|]; subst; clear H5.
  inversion H6 as [| | | |? ? ? ? se ce ? ? Hcolon H7| | | | | | | | |]; subst.
  clear H6. inversion Hcolon; subst; clear Hcolon.
  apply Matches_opt_block in H7. destruct H7 as (umods & Humods & -> & ->).
  exists name, 2, mods, umods. unfold well_formed, token_body.
  repeat split; auto; try discriminate; try lia.
  - rewrite !append_assoc. reflexivity.
  - destruct mods, umods; reflexivity.
  - destruct mods, umods; reflexivity.
  - destruct mods, umods; reflexivity.
Qed.

(** ** Compiling the pattern of a plain marker *)

Lemma steps_app (s1 s2 : string) :
  forall st, Re.steps st (s1 ++ s2)
             = match Re.steps st s1 with
               | Re.POk st' => Re.steps st' s2
               | other => other
               end.
Proof.
  induction s1 as [|c t IH]; simpl; intros st; [reflexivity|].
  destruct (Re.step st c); auto.
Qed.

Lemma step_plain (st : Re.pstate) (c : ascii) :
  Re.mode st = Re.MNormal -> Re.plain c = true ->
  Re.step st c = Re.POk (Re.push_atom st (Re.Lit c)).
Proof.
  intros Hm Hc. unfold Re.step. rewrite Hm. unfold Re.step_normal.
  unfold Re.plain in Hc. simpl in Hc.
  repeat match goal with
         | |- context [Ascii.eqb c ?x] =>
             destruct (Ascii.eqb c x); [discriminate Hc|]
         end.
  reflexivity.
Qed.

Lemma steps_plain (w : string) :
  forall st, Re.all_chars Re.plain w = true -> Re.mode st = Re.MNormal ->
    Re.steps st w
    = Re.POk (Re.mkPstate (Re.alts st) (lit_atoms w (Re.seq st))
                (match w with EmptyString => Re.quant st | _ => false end)
                (Re.stack st) (Re.names st) Re.MNormal).
Proof.
  induction w as [|c t IH]; simpl; intros st Hw Hm.
  - destruct st; simpl in *; subst; reflexivity.
  - apply andb_prop in Hw. destruct Hw as [Hc Ht].
    rewrite step_plain by assumption.
    rewrite IH by (assumption || reflexivity). simpl.
    destruct t; reflexivity.
Qed.

Lemma steps_ICON_RE (acc : list Re.regex) :
  Re.steps (Re.mkPstate [] acc false [] [] Re.MNormal) ICON_RE
  = Re.POk (Re.mkPstate [] (List.app (rev icon_atoms) acc) false []
              ["user_mod"; "mod"; "name"] Re.MNormal).
Proof. vm_compute. reflexivity. Qed.

Lemma mkseq_flatten (l tail : list Re.regex) :
  tail <> [] -> Re.mkseq (List.app l [Re.mkseq tail]) = Re.mkseq (List.app l tail).
Proof.
  intros Ht. induction l as [|a l IH]; simpl.
  - reflexivity.
  - rewrite IH.
    destruct (List.app l [Re.mkseq tail]) eqn:E1;
      [destruct l; discriminate|].
    destruct (List.app l tail) eqn:E2;
      [destruct l; [contradiction | discriminate]|].
    reflexivity.
Qed.

Lemma mkseq_lit_atoms (tail : list Re.regex) :
  tail <> [] ->
  forall w acc,
    Re.mkseq (List.app (rev (lit_atoms w acc)) tail)
    = Re.mkseq (List.app (rev acc) [lits w (Re.mkseq tail)]).
Proof.
  intros Ht. induction w as [|c t IH]; simpl; intros acc.
  - symmetry. apply mkseq_flatten. assumption.
  - rewrite IH. simpl. rewrite <- app_assoc. simpl.
    change (Re.Cat (Re.Lit c) (lits t (Re.mkseq tail)))
      with (Re.mkseq [Re.Lit c; lits t (Re.mkseq tail)]).
    rewrite mkseq_flatten by discriminate. reflexivity.
Qed.

Lemma compile_plain (marker : string) :
  plain_marker marker = true ->
  Re.compile ("&" ++ marker ++ ICON_RE)
  = Py.Ok (Re.mkPattern (lits ("&" ++ marker) ICON_expr)
             ["name"; "mod"; "user_mod"]).
Proof.
  intros Hm. unfold Re.compile.
  change ("&" ++ marker ++ ICON_RE) with (("&" ++ marker) ++ ICON_RE).
  rewrite steps_app.
  rewrite steps_plain by (assumption || reflexivity).
  cbn [Re.alts Re.seq Re.stack Re.names Re.initial String.append].
  rewrite steps_ICON_RE. unfold Re.finish, Re.branches.
  cbn [Re.mode Re.stack Re.names Re.alts Re.seq].
  rewrite rev_app_distr, rev_involutive.
  rewrite (mkseq_lit_atoms icon_atoms) by discriminate.
  reflexivity.
Qed.

Lemma bound_plain (marker base : string) :
  plain_marker marker = true ->
  bound marker base
  = Py.Ok (mkIconFontsPattern
             (Re.mkPattern (lits ("&" ++ marker) ICON_expr)
                ["name"; "mod"; "user_mod"]) base marker).
Proof.
  intros Hm. unfold bound, IconFontsPattern_init.
  rewrite compile_plain by assumption. reflexivity.
Qed.

(** ** Where [search] finds a match *)

Lemma length_skip (n : nat) :
  forall s, String.length (Re.skip n s) = String.length s - n.
Proof.
  induction n as [|n IH]; intros s; simpl.
  - lia.
  - destruct s as [|a t]; simpl; [reflexivity | apply IH].
Qed.

Lemma skip_S (n : nat) :
  forall a t, Re.skip (S n) (String a t) = Re.skip n t.
Proof. reflexivity. Qed.

Lemma search_from_inv (p : Re.Pattern) :
  forall s i m, Re.search_from p s i = Some m ->
    exists k rest c,
      k <= String.length s
      /\ Re.match_here (Re.expr p) (Re.skip k s) = Some (rest, c)
      /\ m = Re.mkMatch (i + k)
               (i + k + (String.length (Re.skip k s) - String.length rest))
               (Re.groupdict p c).
Proof.
  induction s as [|a t IH]; intros i m H; simpl in H.
  - destruct (Re.match_here (Re.expr p) "") as [[rest c]|] eqn:E; [|discriminate].
    injection H as <-. exists 0, rest, c. simpl.
    repeat split; auto. f_equal; lia.
  - destruct (Re.match_here (Re.expr p) (String a t)) as [[rest c]|] eqn:E.
    + injection H as <-. exists 0, rest, c. simpl Re.skip.
      repeat split; auto; [lia | rewrite !Nat.add_0_r; reflexivity].
    + apply IH in H. destruct H as (k & rest & c & Hk & Hm & ->).
      exists (S k), rest, c. rewrite skip_S. simpl String.length.
      replace (i + S k) with (S i + k) by lia.
      repeat split; auto. lia.
Qed.

Lemma skip_skip (n k : nat) :
  forall s, Re.skip k (Re.skip n s) = Re.skip (n + k) s.
Proof.
  induction n as [|n IH]; intros s; simpl.
  - reflexivity.
  - destruct s as [|a t]; [destruct k; reflexivity | apply IH].
Qed.

Lemma search_inv (p : Re.Pattern) (data : string) (pos : nat) (m : Re.Match) :
  Re.search p data pos = Some m ->
  exists rest c,
    Nat.min pos (String.length data) <= Re.m_start m
    /\ Re.m_start m <= String.length data
    /\ Re.match_here (Re.expr p) (Re.skip (Re.m_start m) data) = Some (rest, c)
    /\ Re.m_end m
       = Re.m_start m
         + (String.length (Re.skip (Re.m_start m) data) - String.length rest)
    /\ Re.m_groupdict m = Re.groupdict p c.
Proof.
  unfold Re.search. intros H.
  apply search_from_inv in H. destruct H as (k & rest & c & Hk & Hm & ->).
  rewrite length_skip in Hk. rewrite skip_skip in Hm.
  exists rest, c. simpl. rewrite skip_skip. repeat split; auto; lia.
Qed.

Lemma skip_substring (n : nat) :
  forall data w rest, Re.skip n data = w ++ rest ->
    String.substring n (String.length w) data = w.
Proof.
  induction n as [|n IH]; intros data w rest H; simpl in H.
  - subst data. apply substring_append.
  - destruct data as [|a t].
    + destruct w; [reflexivity | discriminate].
    + simpl. apply IH in H. assumption.
Qed.

(** A match of the pattern of a plain marker is a token: the [&], the
    marker, and a well-formed body, whose parts are the named groups. *)
Lemma search_token (marker base : string) (p : IconFontsPattern)
  (data : string) (pos : nat) (m : Re.Match) :
  plain_marker marker = true ->
  bound marker base = Py.Ok p ->
  Re.search (compiled_re p) data pos = Some m ->
  exists name colons mods umods,
    well_formed name colons mods umods
    /\ pos <= Re.m_start m /\ Re.m_start m <= Re.m_end m
    /\ Re.m_end m <= String.length data
    /\ String.substring (Re.m_start m) (Re.m_end m - Re.m_start m) data
       = "&" ++ marker ++ token_body name colons mods umods
    /\ Re.m_groupdict m
       = [("name", Some name); ("mod", raw_block mods);
          ("user_mod", raw_block umods)].
Proof.
  intros Hplain Hb Hs. rewrite bound_plain in Hb by assumption.
  injection Hb as <-. simpl in Hs.
  apply search_inv in Hs.
  destruct Hs as (rest & c & Hpos & Hlen & Hm & Hend & Hgd).
  simpl in Hm, Hgd. apply match_here_sound in Hm.
  apply (Matches_lits ("&" ++ marker)) in Hm. destruct Hm as (t & Hskip & Hm).
  apply Matches_ICON in Hm.
  destruct Hm as (name & colons & mods & umods & Hwf & -> & Hn & Hmod & Humod).
  exists name, colons, mods, umods.
  assert (Hskip' : Re.skip (Re.m_start m) data
                   = ("&" ++ marker ++ token_body name colons mods umods) ++ rest).
  { rewrite Hskip. simpl. rewrite !append_assoc. reflexivity. }
  assert (Hspan : Re.m_end m - Re.m_start m
                  = String.length ("&" ++ marker ++ token_body name colons mods umods)).
  { rewrite Hend, Hskip', length_append. lia. }
  pose proof (length_skip (Re.m_start m) data) as Hl.
  rewrite Hskip', length_append in Hl. simpl String.length in Hl.
  split; [exact Hwf|]. repeat split; auto.
  - lia.
  - lia.
  - rewrite Hend, Hskip', length_append. simpl String.length. lia.
  - rewrite Hspan. eapply skip_substring. exact Hskip'.
  - rewrite Hgd. unfold Re.groupdict. simpl. rewrite Hn, Hmod, Humod. reflexivity.
Qed.

(** ** The composer *)

Lemma handleMatch_slots (self : IconFontsPattern) (s e : nat)
  (name mod_ user_mod : option string) (data : string) :
  handleMatch self
    (Re.mkMatch s e [("name", name); ("mod", mod_); ("user_mod", user_mod)]) data
  = Py.Ok (icon (Py.join " " (slots (_prefix self) (_base self) name mod_ user_mod)),
           s, e).
Proof.
  unfold handleMatch, slots, icon. simpl.
  destruct (Py.truthy (_base self)), mod_, user_mod; reflexivity.
Qed.

Lemma split_nosep (sep : ascii) (x : string) :
  contains sep x = false -> Py.split sep x = [x].
Proof.
  induction x as [|a x IH]; simpl; intros H; [reflexivity|].
  apply orb_false_elim in H. destruct H as [Ha Hx].
  rewrite Ha, (IH Hx). reflexivity.
Qed.

Lemma split_append (sep : ascii) (x r : string) :
  contains sep x = false ->
  Py.split sep (x ++ String sep r) = x :: Py.split sep r.
Proof.
  induction x as [|a x IH]; simpl; intros H.
  - rewrite Ascii.eqb_refl. reflexivity.
  - apply orb_false_elim in H. destruct H as [Ha Hx].
    rewrite Ha, (IH Hx). reflexivity.
Qed.

Lemma split_join (sep : ascii) (es : list string) :
  Forall (fun x => contains sep x = false) es -> es <> [] ->
  Py.split sep (Py.join (String sep "") es) = es.
Proof.
  induction es as [|e es IH]; intros Hall Hne; [contradiction|].
  inversion Hall as [|? ? He Hes]; subst.
  destruct es as [|e' es'].
  - simpl. apply split_nosep. assumption.
  - change (Py.join (String sep "") (e :: e' :: es'))
      with (e ++ String sep (Py.join (String sep "") (e' :: es'))).
    rewrite split_append by assumption.
    rewrite IH by (assumption || discriminate). reflexivity.
Qed.

Lemma all_chars_contains (p : ascii -> bool) (c : ascii) (s : string) :
  Re.all_chars p s = true -> p c = false -> contains c s = false.
Proof.
  intros Hs Hc. induction s as [|a t IH]; simpl in *; [reflexivity|].
  apply andb_prop in Hs. destruct Hs as [Ha Ht].
  rewrite (IH Ht), orb_false_r.
  destruct (Ascii.eqb_spec a c); [subst; congruence | reflexivity].
Qed.

Lemma valid_name_contains (c : ascii) (s : string) :
  valid_name s = true -> name_char c = false -> contains c s = false.
Proof.
  unfold valid_name. intros H Hc. apply andb_prop in H. destruct H as [_ H].
  eapply all_chars_contains; eassumption.
Qed.

Lemma valid_names_contains (c : ascii) (es : list string) :
  Forall (fun e => valid_name e = true) es -> name_char c = false ->
  Forall (fun e => contains c e = false) es.
Proof.
  intros H Hc. induction H; constructor; auto.
  apply valid_name_contains; assumption.
Qed.

Lemma filter_None_valid (es : list string) :
  Forall (fun e => valid_name e = true) es -> Py.filter_None es = es.
Proof.
  unfold Py.filter_None.
  induction 1 as [|e es He _ IH]; simpl; [reflexivity|].
  unfold valid_name in He. apply andb_prop in He. destruct He as [-> _].
  rewrite IH. reflexivity.
Qed.

Lemma join_app (sep : string) (l1 l2 : list string) :
  l1 <> [] -> l2 <> [] ->
  Py.join sep (List.app l1 l2) = Py.join sep l1 ++ sep ++ Py.join sep l2.
Proof.
  intros H1 H2. induction l1 as [|x l1 IH]; [contradiction|].
  destruct l1 as [|y l1].
  - destruct l2; [contradiction | reflexivity].
  - change (Py.join sep (List.app (x :: y :: l1) l2))
      with (x ++ sep ++ Py.join sep (List.app (y :: l1) l2)).
    rewrite IH by discriminate.
    change (Py.join sep (x :: y :: l1)) with (x ++ sep ++ Py.join sep (y :: l1)).
    rewrite !append_assoc. reflexivity.
Qed.

Lemma join_flatten (sep : string) (a l b : list string) :
  Py.join sep (List.app a (List.app match l with
                                    | [] => []
                                    | _ :: _ => [Py.join sep l]
                                    end b))
  = Py.join sep (List.app a (List.app l b)).
Proof.
  destruct l as [|x l]; [reflexivity|].
  assert (Hmid : Py.join sep (List.app [Py.join sep (x :: l)] b)
                 = Py.join sep (List.app (x :: l) b)).
  { destruct b as [|y b].
    - simpl List.app. rewrite app_nil_r. reflexivity.
    - rewrite (join_app sep (x :: l)) by discriminate. reflexivity. }
  destruct a as [|z a]; [exact Hmid|].
  rewrite !(join_app sep (z :: a)) by (discriminate || (destruct l; discriminate)).
  rewrite Hmid. reflexivity.
Qed.

Lemma comma_not_name_char : name_char "," = false.
Proof. reflexivity. Qed.

Lemma slots_segments (marker base name : string) (colons : nat)
  (mods umods : list string) :
  well_formed name colons mods umods ->
  Py.join " " (slots marker base (Some name) (raw_block mods) (raw_block umods))
  = Py.join " " (segments marker base name mods umods).
Proof.
  intros (_ & Hmods & Humods & _). unfold slots, segments.
  assert (Hm : match raw_block mods with
               | Some raw =>
                   [Py.join " " (map (String.append marker)
                                   (Py.filter_None (Py.split "," raw)))]
               | None => []
               end
               = match map (String.append marker) mods with
                 | [] => []
                 | _ :: _ => [Py.join " " (map (String.append marker) mods)]
                 end).
  { destruct mods as [|e es]; [reflexivity|]. unfold raw_block.
    rewrite split_join, filter_None_valid; try assumption; try discriminate.
    - reflexivity.
    - apply valid_names_contains; [assumption | reflexivity]. }
  assert (Hu : match raw_block umods with
               | Some raw => [Py.join " " (Py.filter_None (Py.split "," raw))]
               | None => []
               end
               = match umods with
                 | [] => []
                 | _ :: _ => [Py.join " " umods]
                 end).
  { destruct umods as [|e es]; [reflexivity|]. unfold raw_block.
    rewrite split_join, filter_None_valid; try assumption; try discriminate.
    - reflexivity.
    - apply valid_names_contains; [assumption | reflexivity]. }
  rewrite Hm, Hu. simpl Py.format.
  set (pre := if Py.truthy base then [base] else []).
  rewrite !app_assoc.
  rewrite <- (app_nil_r (match umods with [] => [] | _ :: _ => _ end)).
  rewrite <- !app_assoc.
  rewrite (app_assoc pre), (app_assoc (List.app pre _)).
  rewrite join_flatten. rewrite <- !app_assoc.
  rewrite (app_assoc pre). rewrite join_flatten.
  rewrite app_nil_r, <- app_assoc. reflexivity.
Qed.

(** ** A simple token is matched whole *)

Lemma matchk_lits (w : string) (r : Re.regex) (k : Re.cont) :
  forall s c, Re.matchk (lits w r) k (w ++ s) c = Re.matchk r k s c.
Proof.
  induction w as [|a w IH]; simpl; intros s c; [reflexivity|].
  rewrite Ascii.eqb_refl. apply IH.
Qed.

Lemma matchk_name_set (k : Re.cont) (a : ascii) (t : string) (c : Re.caps) :
  Re.matchk name_set k (String a t) c = if name_char a then k t c else None.
Proof. unfold name_set. cbn [Re.matchk]. rewrite name_set_char. reflexivity. Qed.

Lemma star_loop_S (m : Re.cont -> Re.cont) (n : nat) (k : Re.cont)
  (s : string) (c : Re.caps) :
  Re.star_loop m (S n) k s c
  = match m (fun s1 c1 =>
               if Nat.ltb (String.length s1) (String.length s)
               then Re.star_loop m n k s1 c1 else None) s c with
    | Some x => Some x
    | None => k s c
    end.
Proof. reflexivity. Qed.

Lemma star_loop_greedy (k : Re.cont) (res : string * Re.caps) (s' : string)
  (c : Re.caps) :
  (forall a t, s' = String a t -> name_char a = false) ->
  k s' c = Some res ->
  forall w n, Re.all_chars name_char w = true ->
    String.length (w ++ s') <= n ->
    Re.star_loop (Re.matchk name_set) n k (w ++ s') c = Some res.
Proof.
  intros Hs' Hk. induction w as [|a w IH]; intros n Hw Hn.
  - change ("" ++ s') with s'. destruct n as [|n]; [exact Hk|].
    rewrite star_loop_S. destruct s' as [|b t].
    + cbn [Re.matchk name_set]. exact Hk.
    + rewrite matchk_name_set, (Hs' b t eq_refl). exact Hk.
  - simpl in Hw. apply andb_prop in Hw. destruct Hw as [Ha Hw].
    destruct n as [|n]; [simpl in Hn; lia|].
    change (String a w ++ s') with (String a (w ++ s')).
    rewrite star_loop_S, matchk_name_set, Ha.
    replace (Nat.ltb (String.length (w ++ s')) (String.length (String a (w ++ s'))))
      with true by (symmetry; apply Nat.ltb_lt; simpl; lia).
    rewrite IH; [reflexivity | assumption | simpl in Hn; lia].
Qed.

Lemma matchk_ICON_simple (k : Re.cont) (res : string * Re.caps)
  (name rest : string) :
  valid_name name = true ->
  k rest [("name", name)] = Some res ->
  Re.matchk ICON_expr k (name ++ ";" ++ rest) [] = Some res.
Proof.
  unfold valid_name. intros Hname Hk.
  destruct name as [|a w]; [discriminate|]. simpl in Hname.
  apply andb_prop in Hname. destruct Hname as [Ha Hw].
  unfold ICON_expr, icon_atoms. cbn [Re.mkseq Re.matchk].
  change (String a w ++ ";" ++ rest) with (String a (w ++ String ";" rest)).
  rewrite matchk_name_set, Ha.
  apply star_loop_greedy.
  - intros b t E. injection E as <- _. reflexivity.
  - change (String a (w ++ String ";" rest))
      with (String a w ++ String ";" rest).
    rewrite consumed_append. cbn. exact Hk.
  - assumption.
  - lia.
Qed.

Lemma match_here_simple (marker name rest : string) :
  valid_name name = true ->
  Re.match_here (lits ("&" ++ marker) ICON_expr)
    ("&" ++ marker ++ name ++ ";" ++ rest)
  = Some (rest, [("name", name)]).
Proof.
  intros Hname. unfold Re.match_here.
  change ("&" ++ marker ++ name ++ ";" ++ rest)
    with (("&" ++ marker) ++ name ++ ";" ++ rest).
  rewrite matchk_lits. apply matchk_ICON_simple; [assumption | reflexivity].
Qed.

(** ** A token without its terminator *)

Lemma all_chars_append (p : ascii -> bool) (a b : string) :
  Re.all_chars p (a ++ b) = Re.all_chars p a && Re.all_chars p b.
Proof.
  induction a as [|x a IH]; simpl; [reflexivity|].
  rewrite IH, andb_assoc. reflexivity.
Qed.

Lemma all_chars_weaken (p q : ascii -> bool) (s : string) :
  (forall c, p c = true -> q c = true) ->
  Re.all_chars p s = true -> Re.all_chars q s = true.
Proof.
  intros Hpq. induction s as [|a t IH]; simpl; intros H; [reflexivity|].
  apply andb_prop in H. destruct H as [Ha Ht].
  rewrite (Hpq a Ha), (IH Ht). reflexivity.
Qed.

Lemma valid_name_body (e : string) :
  valid_name e = true -> Re.all_chars body_char e = true.
Proof.
  unfold valid_name. intros H. apply andb_prop in H. destruct H as [_ H].
  revert H. apply all_chars_weaken. intros c Hc. unfold body_char.
  rewrite Hc. reflexivity.
Qed.

Lemma join_body (es : list string) :
  Forall (fun e => valid_name e = true) es ->
  Re.all_chars body_char (Py.join "," es) = true.
Proof.
  induction 1 as [|e es He Hes IH]; [reflexivity|].
  destruct es as [|e' es'].
  - simpl. apply valid_name_body. assumption.
  - change (Py.join "," (e :: e' :: es'))
      with (e ++ "," ++ Py.join "," (e' :: es')).
    rewrite !all_chars_append, IH, (valid_name_body e He). reflexivity.
Qed.

Lemma token_body_chars (name : string) (colons : nat) (mods umods : list string) :
  well_formed name colons mods umods ->
  exists body, token_body name colons mods umods = body ++ ";"
               /\ Re.all_chars body_char body = true.
Proof.
  intros (Hn & Hm & Hu & _). unfold token_body.
  pose proof (valid_name_body name Hn) as Hn'.
  pose proof (join_body mods Hm) as Hm'.
  pose proof (join_body umods Hu) as Hu'.
  destruct colons as [|[|k]].
  - exists name. split; [reflexivity | assumption].
  - exists (name ++ ":" ++ Py.join "," mods). split.
    + rewrite !append_assoc. reflexivity.
    + rewrite !all_chars_append, Hn', Hm'. reflexivity.
  - exists (name ++ ":" ++ Py.join "," mods ++ ":" ++ Py.join "," umods). split.
    + rewrite !append_assoc. reflexivity.
    + rewrite !all_chars_append, Hn', Hm', Hu'. reflexivity.
Qed.

Lemma terminator_needed (body : string) :
  forall w rest s1,
    Re.all_chars body_char body = true ->
    Re.all_chars body_char w = true ->
    unterminated rest = true ->
    body ++ ";" ++ s1 = w ++ rest -> False.
Proof.
  induction body as [|b body IH]; intros w rest s1 Hb Hw Hr E.
  - destruct w as [|a w]; simpl in E.
    + subst rest. discriminate Hr.
    + injection E as <- _. discriminate Hw.
  - simpl in Hb. apply andb_prop in Hb. destruct Hb as [Hb Hbody].
    destruct w as [|a w]; simpl in E.
    + subst rest. simpl in Hr. rewrite Hb in Hr. discriminate Hr.
    + injection E as <- E. simpl in Hw. apply andb_prop in Hw.
      destruct Hw as [_ Hw]. exact (IH w rest s1 Hbody Hw Hr E).
Qed.

Lemma unterminated_no_match (marker w rest : string) :
  Re.all_chars body_char w = true -> unterminated rest = true ->
  Re.match_here (lits ("&" ++ marker) ICON_expr) ("&" ++ marker ++ w ++ rest)
  = None.
Proof.
  intros Hw Hr.
  destruct (Re.match_here _ _) as [[s1 c]|] eqn:E; [|reflexivity].
  exfalso. apply match_here_sound in E.
  apply (Matches_lits ("&" ++ marker)) in E. destruct E as (t & Ht & HM).
  change ("&" ++ marker ++ w ++ rest) with (("&" ++ marker) ++ w ++ rest) in Ht.
  apply append_inv_head in Ht. subst t.
  apply Matches_ICON in HM.
  destruct HM as (name & colons & mods & umods & Hwf & E & _).
  destruct (token_body_chars _ _ _ _ Hwf) as (body & Hbody & Hchars).
  rewrite Hbody, append_assoc in E.
  eapply terminator_needed; [exact Hchars | exact Hw | exact Hr |].
  symmetry. exact E.
Qed.

Lemma contains_append (c : ascii) (a b : string) :
  contains c (a ++ b) = contains c a || contains c b.
Proof.
  induction a as [|x a IH]; simpl; [reflexivity|].
  rewrite IH, orb_assoc. reflexivity.
Qed.

Lemma contains_substring (c : ascii) (s : string) :
  forall n m, contains c (String.substring n m s) = true -> contains c s = true.
Proof.
  induction s as [|a t IH]; intros n m H.
  - destruct n, m; simpl in H; discriminate.
  - destruct n as [|n].
    + destruct m as [|m]; simpl in H; [discriminate|].
      simpl. apply orb_prop in H. destruct H as [H|H].
      * rewrite H. reflexivity.
      * rewrite (IH _ _ H). apply orb_true_r.
    + simpl in H. simpl. rewrite (IH _ _ H). apply orb_true_r.
Qed.

Lemma token_has_terminator (marker name : string) (colons : nat)
  (mods umods : list string) :
  contains ";" ("&" ++ marker ++ token_body name colons mods umods) = true.
Proof.
  unfold token_body. rewrite !contains_append. simpl. 
  rewrite !orb_true_r. reflexivity.
Qed.

(** ** Spaces and delimiters in the class string *)

Lemma contains_join (c : ascii) (sep : string) (l : list string) :
  contains c sep = false -> Forall (fun x => contains c x = false) l ->
  contains c (Py.join sep l) = false.
Proof.
  intros Hsep. induction 1 as [|x l Hx Hl IH]; [reflexivity|].
  destruct l as [|y l].
  - exact Hx.
  - change (Py.join sep (x :: y :: l)) with (x ++ sep ++ Py.join sep (y :: l)).
    rewrite !contains_append, Hx, Hsep, IH. reflexivity.
Qed.

Lemma starts_with_contains (c : ascii) (s : string) :
  contains c s = false -> starts_with c s = false.
Proof.
  destruct s as [|a t]; simpl; [reflexivity|].
  intros H. apply orb_false_elim in H. tauto.
Qed.

Lemma ends_with_contains (c : ascii) (s : string) :
  contains c s = false -> ends_with c s = false.
Proof.
  induction s as [|a t IH]; simpl; [reflexivity|].
  intros H. apply orb_false_elim in H. destruct H as [Ha Ht].
  destruct t; [assumption | apply IH; assumption].
Qed.

Lemma has_double_space_contains (s : string) :
  contains " " s = false -> has_double_space s = false.
Proof.
  induction s as [|a t IH]; simpl; [reflexivity|].
  intros H. apply orb_false_elim in H. destruct H as [Ha Ht].
  rewrite Ha, (IH Ht). reflexivity.
Qed.

Lemma starts_with_append (c : ascii) (a b : string) :
  starts_with c (a ++ b)
  = match a with
    | EmptyString => starts_with c b
    | String _ _ => starts_with c a
    end.
Proof. destruct a; reflexivity. Qed.

Lemma ends_with_append (c : ascii) (a b : string) :
  Py.truthy b = true -> ends_with c (a ++ b) = ends_with c b.
Proof.
  intros Hb. induction a as [|x a IH]; [reflexivity|].
  simpl. rewrite IH. destruct (a ++ b) eqn:E; [|reflexivity].
  destruct a; simpl in E; [subst b; discriminate | discriminate].
Qed.

Lemma has_double_space_append (a b : string) :
  has_double_space (a ++ b)
  = has_double_space a || (ends_with " " a && starts_with " " b)
    || has_double_space b.
Proof.
  induction a as [|x a IH]; [reflexivity|].
  change (String x a ++ b) with (String x (a ++ b)).
  cbn [has_double_space]. rewrite IH, starts_with_append.
  destruct a as [|y a]; simpl.
  - destruct (Ascii.eqb x " "), (starts_with " " b), (has_double_space b);
      reflexivity.
  - destruct (Ascii.eqb x " "), (Ascii.eqb y " "), (has_double_space (String y a)),
      (has_double_space b), (starts_with " " b),
      (match a with "" => Ascii.eqb y " " | String _ _ => ends_with " " a end);
      reflexivity.
Qed.

Lemma truthy_append (a b : string) :
  Py.truthy (a ++ b) = Py.truthy a || Py.truthy b.
Proof. destruct a; reflexivity. Qed.

Lemma tidy_sep (a b : string) :
  tidy a = true -> tidy b = true -> tidy (a ++ " " ++ b) = true.
Proof.
  unfold tidy. intros Ha Hb.
  repeat (apply andb_prop in Ha; destruct Ha as [Ha ?]).
  repeat (apply andb_prop in Hb; destruct Hb as [Hb ?]).
  rewrite truthy_append, Ha. simpl orb.
  rewrite starts_with_append. destruct a as [|x a]; [discriminate|].
  rewrite has_double_space_append.
  rewrite (ends_with_append " " (String x a) (" " ++ b)) by reflexivity.
  change (" " ++ b) with (String " " b).
  destruct b as [|y b]; [discriminate|].
  cbn [ends_with has_double_space starts_with] in *.
  repeat match goal with
         | H : negb ?x = true |- _ => apply negb_true_iff in H; rewrite ?H
         end.
  simpl. rewrite ?andb_false_r.
  repeat match goal with
         | H : _ = false |- _ => rewrite H
         end.
  reflexivity.
Qed.

Lemma tidy_join (l : list string) :
  l <> [] -> Forall (fun x => tidy x = true) l -> tidy (Py.join " " l) = true.
Proof.
  intros Hne H. induction H as [|x l Hx Hl IH]; [contradiction|].
  destruct l as [|y l]; [exact Hx|].
  change (Py.join " " (x :: y :: l)) with (x ++ " " ++ Py.join " " (y :: l)).
  apply tidy_sep; [assumption | apply IH; discriminate].
Qed.

Lemma space_not_name_char : name_char " " = false.
Proof. reflexivity. Qed.

Lemma tidy_valid (e : string) : valid_name e = true -> tidy e = true.
Proof.
  intros He.
  pose proof (valid_name_contains " " e He space_not_name_char) as Hsp.
  unfold valid_name in He. apply andb_prop in He. destruct He as [Hne _].
  unfold tidy.
  rewrite Hne, (starts_with_contains _ _ Hsp), (ends_with_contains _ _ Hsp),
    (has_double_space_contains _ Hsp).
  reflexivity.
Qed.

Lemma tidy_marked (marker e : string) :
  starts_with " " marker = false -> has_double_space marker = false ->
  valid_name e = true -> tidy (marker ++ e) = true.
Proof.
  intros Hst Hds He. pose proof (tidy_valid e He) as Ht. unfold tidy in *.
  repeat (apply andb_prop in Ht; destruct Ht as [Ht ?]).
  repeat match goal with
         | H : negb ?x = true |- _ => apply negb_true_iff in H
         end.
  rewrite truthy_append, Ht, orb_true_r.
  rewrite ends_with_append by assumption.
  rewrite has_double_space_append, starts_with_append.
  rewrite Hds. destruct marker as [|x marker].
  - simpl. rewrite H, H0, H1. reflexivity.
  - rewrite Hst, H, H0, H1, andb_false_r. reflexivity.
Qed.

Lemma tidy_tail (marker name : string) (mods umods : list string) :
  starts_with " " marker = false -> has_double_space marker = false ->
  valid_name name = true ->
  Forall (fun e => valid_name e = true) mods ->
  Forall (fun e => valid_name e = true) umods ->
  Forall (fun x => tidy x = true)
    ((marker ++ name) :: List.app (map (String.append marker) mods) umods).
Proof.
  intros Hst Hds Hn Hm Hu. constructor; [apply tidy_marked; assumption|].
  apply Forall_app. split.
  - induction Hm; simpl; constructor; auto. apply tidy_marked; assumption.
  - induction Hu; constructor; auto. apply tidy_valid; assumption.
Qed.

Lemma segments_no_double_space (marker base name : string)
  (mods umods : list string) :
  starts_with " " marker = false -> has_double_space marker = false ->
  ends_with " " base = false -> has_double_space base = false ->
  valid_name name = true ->
  Forall (fun e => valid_name e = true) mods ->
  Forall (fun e => valid_name e = true) umods ->
  has_double_space (Py.join " " (segments marker base name mods umods)) = false.
Proof.
  intros Hst Hds Hbe Hbd Hn Hm Hu.
  pose proof (tidy_tail marker name mods umods Hst Hds Hn Hm Hu) as Htail.
  apply tidy_join in Htail; [|discriminate].
  unfold tidy in Htail.
  repeat (apply andb_prop in Htail; destruct Htail as [Htail ?]).
  repeat match goal with
         | H : negb ?x = true |- _ => apply negb_true_iff in H
         end.
  unfold segments.
  set (J := Py.join " " _) in *.
  destruct (Py.truthy base) eqn:Hb; [|exact H].
  change (Py.join " " (List.app [base] ?l)) with (base ++ " " ++ J).
  rewrite has_double_space_append, Hbd, Hbe.
  change (has_double_space (" " ++ J))
    with ((Ascii.eqb " " " " && starts_with " " J) || has_double_space J).
  rewrite H1, H. reflexivity.
Qed.

Lemma segments_no_char (c : ascii) (marker base name : string)
  (mods umods : list string) :
  name_char c = false -> Ascii.eqb " " c = false ->
  contains c marker = false -> contains c base = false ->
  valid_name name = true ->
  Forall (fun e => valid_name e = true) mods ->
  Forall (fun e => valid_name e = true) umods ->
  contains c (Py.join " " (segments marker base name mods umods)) = false.
Proof.
  intros Hc Hsp Hmk Hb Hn Hm Hu. apply contains_join.
  - cbn [contains]. rewrite Hsp. reflexivity.
  - unfold segments. apply Forall_app. split.
    + destruct (Py.truthy base); repeat constructor. assumption.
    + constructor.
      * rewrite contains_append, Hmk. simpl.
        apply valid_name_contains; assumption.
      * apply Forall_app. split.
        -- induction Hm; simpl; constructor; auto.
           rewrite contains_append, Hmk. simpl.
           apply valid_name_contains; assumption.
        -- apply valid_names_contains; assumption.
Qed.

(** ** The registry *)

Section RegistryFacts.

Variable A : Type.

Implicit Types (reg : Registry.t A) (name : string).

Lemma get_app reg reg' name :
  Registry.get (List.app reg reg') name
  = match Registry.get reg name with
    | Some x => Some x
    | None => Registry.get reg' name
    end.
Proof.
  induction reg as [|e reg IH]; simpl; [reflexivity|].
  destruct (String.eqb (Registry.e_name e) name); [reflexivity | apply IH].
Qed.

Lemma get_deregister_same reg name :
  Registry.get (Registry.deregister reg name) name = None.
Proof.
  induction reg as [|e reg IH]; simpl; [reflexivity|].
  destruct (String.eqb (Registry.e_name e) name) eqn:E; simpl; [apply IH|].
  rewrite E. apply IH.
Qed.

Lemma get_deregister_other reg name name' :
  name' <> name ->
  Registry.get (Registry.deregister reg name) name' = Registry.get reg name'.
Proof.
  intros Hne. induction reg as [|e reg IH]; simpl; [reflexivity|].
  destruct (String.eqb (Registry.e_name e) name) eqn:E; simpl.
  - apply String.eqb_eq in E.
    destruct (String.eqb_spec (Registry.e_name e) name'); [congruence | apply IH].
  - rewrite IH. reflexivity.
Qed.

Lemma get_register_same reg (item : A) name (priority : nat) :
  Registry.get (Registry.register reg item name priority) name = Some item.
Proof.
  unfold Registry.register. rewrite get_app, get_deregister_same. simpl.
  rewrite String.eqb_refl. reflexivity.
Qed.

Lemma get_register_other reg (item : A) name name' (priority : nat) :
  name' <> name ->
  Registry.get (Registry.register reg item name priority) name'
  = Registry.get reg name'.
Proof.
  intros Hne. unfold Registry.register.
  rewrite get_app, get_deregister_other by assumption. simpl.
  destruct (String.eqb_spec name name'); [congruence|].
  destruct (Registry.get reg name'); reflexivity.
Qed.

Lemma count_deregister_same reg name :
  count_occ string_dec
    (Registry.registered_names (Registry.deregister reg name)) name = 0.
Proof.
  induction reg as [|e reg IH]; simpl; [reflexivity|].
  destruct (String.eqb_spec (Registry.e_name e) name) as [E|E]; simpl; [apply IH|].
  destruct (string_dec (Registry.e_name e) name); [contradiction | apply IH].
Qed.

Lemma count_deregister_other reg name name' :
  name' <> name ->
  count_occ string_dec
    (Registry.registered_names (Registry.deregister reg name)) name'
  = count_occ string_dec (Registry.registered_names reg) name'.
Proof.
  intros Hne. induction reg as [|e reg IH]; simpl; [reflexivity|].
  destruct (String.eqb_spec (Registry.e_name e) name) as [E|E]; simpl.
  - destruct (string_dec (Registry.e_name e) name'); [congruence | apply IH].
  - rewrite IH. reflexivity.
Qed.

Lemma count_register_same reg (item : A) name (priority : nat) :
  count_occ string_dec
    (Registry.registered_names (Registry.register reg item name priority)) name
  = 1.
Proof.
  unfold Registry.register, Registry.registered_names.
  rewrite map_app, count_occ_app.
  fold (Registry.registered_names (Registry.deregister reg name)).
  rewrite count_deregister_same. simpl.
  destruct (string_dec name name); [reflexivity | contradiction].
Qed.

Lemma count_register_other reg (item : A) name name' (priority : nat) :
  name' <> name ->
  count_occ string_dec
    (Registry.registered_names (Registry.register reg item name priority)) name'
  = count_occ string_dec (Registry.registered_names reg) name'.
Proof.
  intros Hne. unfold Registry.register, Registry.registered_names.
  rewrite map_app, count_occ_app.
  fold (Registry.registered_names (Registry.deregister reg name)).
  fold (Registry.registered_names reg).
  rewrite count_deregister_other by assumption. simpl.
  destruct (string_dec name name'); [congruence | lia].
Qed.

End RegistryFacts.

Arguments get_register_same {A}.
Arguments get_register_other {A}.
Arguments count_register_same {A}.
Arguments count_register_other {A}.

(** ** Setting the extension up *)

Lemma register_pair_plain (md : Markdown) (pair : string * string) :
  plain_marker (fst pair) = true ->
  register_pair (Py.Ok md) pair
  = Py.Ok (mkMarkdown (register_plain (inlinePatterns md) pair)).
Proof.
  destruct pair as [marker b]. intros Hm. simpl fst in Hm.
  unfold register_pair. cbn [Py.bind].
  change (IconFontsPattern_init ("&" ++ marker ++ ICON_RE) b marker)
    with (bound marker b).
  rewrite bound_plain by assumption. reflexivity.
Qed.

Lemma fold_register_plain (l : list (string * string)) :
  forall md, Forall (fun q => plain_marker (fst q) = true) l ->
    fold_left register_pair l (Py.Ok md)
    = Py.Ok (mkMarkdown (fold_left register_plain l (inlinePatterns md))).
Proof.
  induction l as [|q l IH]; intros md H; cbn [fold_left].
  - destruct md; reflexivity.
  - inversion H as [|? ? Hq Hl]; subst.
    rewrite register_pair_plain by assumption. rewrite IH by assumption.
    reflexivity.
Qed.

Lemma extendMarkdown_plain (self : Config) (md : Markdown) :
  plain_marker (prefix self) = true ->
  Forall (fun q => plain_marker (fst q) = true) (prefix_base_pairs self) ->
  extendMarkdown self md
  = Py.Ok (mkMarkdown
             (fold_left register_plain (prefix_base_pairs self)
                (Registry.register (inlinePatterns md)
                   (plain_processor (prefix self) (base self)) "iconfonts" 175))).
Proof.
  intros Hp Hl. unfold extendMarkdown.
  change (IconFontsPattern_init ("&" ++ prefix self ++ ICON_RE) (base self)
            (prefix self))
    with (bound (prefix self) (base self)).
  rewrite bound_plain by assumption.
  cbn [Py.bind]. unfold Py.dict_items.
  rewrite fold_register_plain by assumption. reflexivity.
Qed.

Lemma pair_name_not_default (marker : string) : pair_name marker <> "iconfonts".
Proof. unfold pair_name. simpl. discriminate. Qed.

Lemma fold_register_plain_other (name : string) (l : list (string * string)) :
  forall reg, Forall (fun q => pair_name (fst q) <> name) l ->
    Registry.get (fold_left register_plain l reg) name = Registry.get reg name
    /\ count_occ string_dec
         (Registry.registered_names (fold_left register_plain l reg)) name
       = count_occ string_dec (Registry.registered_names reg) name.
Proof.
  induction l as [|q l IH]; intros reg H; simpl; [split; reflexivity|].
  inversion H as [|? ? Hq Hl]; subst.
  destruct (IH (register_plain reg q) Hl) as [-> ->].
  unfold register_plain.
  rewrite get_register_other, count_register_other by congruence.
  split; reflexivity.
Qed.

Lemma fold_register_plain_names (l : list (string * string)) :
  forall reg name,
    (In name (Registry.registered_names reg)
     \/ exists q, In q l /\ pair_name (fst q) = name) ->
    In name (Registry.registered_names (fold_left register_plain l reg)).
Proof.
  induction l as [|q l IH]; intros reg name H; simpl.
  - destruct H as [H|(q & [] & _)]. assumption.
  - apply IH.
    destruct (string_dec (pair_name (fst q)) name) as [E|E].
    + left. apply (count_occ_In string_dec). unfold register_plain.
      rewrite <- E, count_register_same. lia.
    + destruct H as [H|(q' & [->|Hin] & Hq')]; [|contradiction|].
      * left. apply (count_occ_In string_dec). unfold register_plain.
        rewrite count_register_other by congruence.
        apply (count_occ_In string_dec). assumption.
      * right. exists q'. split; assumption.
Qed.

Lemma fold_register_plain_last (l : list (string * string)) :
  forall reg marker b,
    Registry.get reg (pair_name marker) = Some (plain_processor marker b) ->
    count_occ string_dec (Registry.registered_names reg) (pair_name marker) = 1 ->
    exists marker' b',
      In (marker', b') ((marker, b) :: l)
      /\ pair_name marker' = pair_name marker
      /\ Registry.get (fold_left register_plain l reg) (pair_name marker)
         = Some (plain_processor marker' b')
      /\ count_occ string_dec
           (Registry.registered_names (fold_left register_plain l reg))
           (pair_name marker)
         = 1.
Proof.
  induction l as [|q l IH]; intros reg marker b Hget Hcount; cbn [fold_left].
  - exists marker, b.
    split; [left; reflexivity|]. split; [reflexivity|].
    split; [exact Hget | exact Hcount].
  - destruct (string_dec (pair_name (fst q)) (pair_name marker)) as [E|E].
    + destruct (IH (register_plain reg q) (fst q) (snd q))
        as (marker' & b' & Hin & Hname & Hg & Hc).
      * unfold register_plain. apply get_register_same.
      * unfold register_plain. apply count_register_same.
      * exists marker', b'. rewrite <- E.
        split; [right; destruct q; exact Hin|].
        split; [exact Hname|]. split; [exact Hg | exact Hc].
    + destruct (IH (register_plain reg q) marker b)
        as (marker' & b' & Hin & Hname & Hg & Hc).
      * unfold register_plain. rewrite get_register_other by congruence.
        exact Hget.
      * unfold register_plain. rewrite count_register_other by congruence.
        exact Hcount.
      * exists marker', b'.
        split; [destruct Hin as [Hin|Hin];
                [left; exact Hin | right; right; exact Hin]|].
        split; [exact Hname|]. split; [exact Hg | exact Hc].
Qed.

Lemma register_pair_compile (md : Markdown) (pair : string * string) :
  register_pair (Py.Ok md) pair
  = match Re.compile ("&" ++ fst pair ++ ICON_RE) with
    | Py.Ok re =>
        Py.Ok (mkMarkdown
                 (Registry.register (inlinePatterns md)
                    (mkIconFontsPattern re (snd pair) (fst pair))
                    (pair_name (fst pair)) 175))
    | Py.Raise e => Py.Raise e
    end.
Proof.
  destruct pair as [marker b]. unfold register_pair, IconFontsPattern_init.
  cbn [Py.bind fst snd]. destruct (Re.compile _); reflexivity.
Qed.

Lemma fold_register_raise (l : list (string * string)) (e : Py.exn) :
  fold_left register_pair l (Py.Raise e) = Py.Raise e.
Proof. induction l as [|q l IH]; [reflexivity | exact IH]. Qed.

Lemma fold_register_raise_inv (l : list (string * string)) :
  forall md e, fold_left register_pair l (Py.Ok md) = Py.Raise e ->
    exists q, In q l /\ Re.compile ("&" ++ fst q ++ ICON_RE) = Py.Raise e.
Proof.
  induction l as [|q l IH]; intros md e H; cbn [fold_left] in H; [discriminate|].
  rewrite register_pair_compile in H.
  destruct (Re.compile ("&" ++ fst q ++ ICON_RE)) as [re|e'] eqn:E.
  - apply IH in H. destruct H as (q' & Hin & Hq'). exists q'. split; [right|]; auto.
  - rewrite fold_register_raise in H. injection H as ->.
    exists q. split; [left; reflexivity | assumption].
Qed.

Lemma fold_register_raises (l : list (string * string)) :
  forall r q e, In q l -> Re.compile ("&" ++ fst q ++ ICON_RE) = Py.Raise e ->
    exists e', fold_left register_pair l r = Py.Raise e'.
Proof.
  induction l as [|q0 l IH]; intros r q e Hin Hq; [contradiction|].
  cbn [fold_left]. destruct r as [md|e0].
  - destruct Hin as [->|Hin].
    + rewrite register_pair_compile, Hq, fold_register_raise. eauto.
    + eapply IH; eassumption.
  - change (register_pair (Py.Raise e0) q0) with (@Py.Raise Markdown e0).
    rewrite fold_register_raise. eauto.
Qed.

Lemma rstrip_spec (marker : string) :
  exists n, marker = Py.rstrip "-" marker ++ hyphens n
            /\ ends_with "-" (Py.rstrip "-" marker) = false.
Proof.
  induction marker as [|a t (n & Hn & He)].
  - exists 0. split; reflexivity.
  - cbn [Py.rstrip]. destruct (Py.rstrip "-" t) as [|b u] eqn:E.
    + destruct (Ascii.eqb_spec a "-") as [->|Ha].
      * exists (S n). split; [simpl; rewrite Hn at 1; reflexivity | reflexivity].
      * exists n. split.
        -- simpl. rewrite Hn at 1. reflexivity.
        -- simpl. apply Ascii.eqb_neq. assumption.
    + exists n. split.
      * simpl. rewrite Hn at 1. reflexivity.
      * exact He.
Qed.

Lemma search_from_hit (p : Re.Pattern) (s rest : string) (c : Re.caps) (i : nat) :
  Re.match_here (Re.expr p) s = Some (rest, c) ->
  Re.search_from p s i
  = Some (Re.mkMatch i (i + (String.length s - String.length rest))
            (Re.groupdict p c)).
Proof. intros H. destruct s; cbn [Re.search_from]; rewrite H; reflexivity. Qed.

(** * The claims *)

(** C1. The composer builds the class string slot by slot, in a fixed order:
    the base when it is not empty, the marker followed by the name, the
    entries of the raw [mod] block (split on [,], empty entries dropped,
    the marker put before each, joined by spaces), and the entries of the
    raw [user_mod] block (split and filtered alike, joined as they are).
    This holds for every match object with the three named groups, every
    match of the pattern of a plain marker is one, and
    ["&icon-spinner:large,spin:red;"] under the default binding yields
    ["icon-spinner icon-large icon-spin red"]. *)
Theorem composer_slot_order :
  (forall self s e name mod_ user_mod data,
     handleMatch self
       (Re.mkMatch s e [("name", name); ("mod", mod_); ("user_mod", user_mod)])
       data
     = Py.Ok (icon (Py.join " "
                      (slots (_prefix self) (_base self) name mod_ user_mod)),
              s, e))
  /\ (forall marker base p data pos m,
        plain_marker marker = true ->
        bound marker base = Py.Ok p ->
        Re.search (compiled_re p) data pos = Some m ->
        exists name mod_ user_mod,
          valid_name name = true
          /\ Re.m_groupdict m
             = [("name", Some name); ("mod", mod_); ("user_mod", user_mod)]
          /\ handleMatch p m data
             = Py.Ok (icon (Py.join " "
                              (slots marker base (Some name) mod_ user_mod)),
                      Re.m_start m, Re.m_end m))
  /\ (exists p,
        bound (prefix default_config) (base default_config) = Py.Ok p
        /\ apply_pattern p "&icon-spinner:large,spin:red;" 0
           = Py.Ok (Some (icon "icon-spinner icon-large icon-spin red", 0, 29))).
Proof.
  split; [|split].
  - intros. apply handleMatch_slots.
  - intros marker base p data pos m Hplain Hb Hs.
    destruct (search_token _ _ _ _ _ _ Hplain Hb Hs)
      as (name & colons & mods & umods & Hwf & _ & _ & _ & _ & Hgd).
    exists name, (raw_block mods), (raw_block umods).
    split; [apply Hwf|]. split; [exact Hgd|].
    rewrite bound_plain in Hb by assumption. injection Hb as <-.
    destruct m as [s e gd]. simpl in Hgd. subst gd.
    apply handleMatch_slots.
  - eexists. split; [vm_compute; reflexivity|]. vm_compute. reflexivity.
Qed.

Lemma composer_slot_order_witness :
  plain_marker "fa-" = true
  /\ bound "fa-" "fa" = Py.Ok (plain_processor "fa-" "fa")
  /\ Re.search (compiled_re (plain_processor "fa-" "fa")) "a &fa-html5:2x; b" 0
     = Some (Re.mkMatch 2 15 [("name", Some "html5"); ("mod", Some "2x");
                              ("user_mod", None)])
  /\ exists name mod_ user_mod,
       valid_name name = true
       /\ Re.m_groupdict (Re.mkMatch 2 15 [("name", Some "html5");
                                          ("mod", Some "2x"); ("user_mod", None)])
          = [("name", Some name); ("mod", mod_); ("user_mod", user_mod)]
       /\ handleMatch (plain_processor "fa-" "fa")
            (Re.mkMatch 2 15 [("name", Some "html5"); ("mod", Some "2x");
                              ("user_mod", None)])
            "a &fa-html5:2x; b"
          = Py.Ok (icon (Py.join " " (slots "fa-" "fa" (Some name) mod_ user_mod)),
                   2, 15).
Proof.
  split; [reflexivity|]. split; [vm_compute; reflexivity|].
  split; [vm_compute; reflexivity|].
  apply (proj1 (proj2 composer_slot_order) "fa-" "fa"
           (plain_processor "fa-" "fa") "a &fa-html5:2x; b" 0).
  - reflexivity.
  - vm_compute. reflexivity.
  - vm_compute. reflexivity.
Defined.

(** C2, as the code has it.  The composer, handed the raw modifier block
    ["mod1,,mod2"], drops the empty entry: the class string has the [mod1]
    and [mod2] segments after the name, with no empty segment and no double
    space.  The pattern itself does not accept such a block:
    ["&icon-name:mod1,,mod2;"] is not matched under the default binding. *)
Theorem empty_entry_filtered_but_not_matched :
  (forall self s e name data,
     handleMatch self
       (Re.mkMatch s e [("name", Some name); ("mod", Some "mod1,,mod2");
                        ("user_mod", None)]) data
     = Py.Ok (icon (Py.join " "
                      (List.app (if Py.truthy (_base self) then [_base self] else [])
                         [_prefix self ++ name; _prefix self ++ "mod1";
                          _prefix self ++ "mod2"])),
              s, e))
  /\ (exists p,
        bound (prefix default_config) (base default_config) = Py.Ok p
        /\ handleMatch p
             (Re.mkMatch 0 22 [("name", Some "name"); ("mod", Some "mod1,,mod2");
                               ("user_mod", None)]) "&icon-name:mod1,,mod2;"
           = Py.Ok (icon "icon-name icon-mod1 icon-mod2", 0, 22)
        /\ has_double_space "icon-name icon-mod1 icon-mod2" = false
        /\ apply_pattern p "&icon-name:mod1,,mod2;" 0 = Py.Ok None).
Proof.
  split.
  - intros. rewrite handleMatch_slots. unfold slots. simpl.
    destruct (Py.truthy (_base self)); reflexivity.
  - eexists. split; [vm_compute; reflexivity|].
    repeat split; vm_compute; reflexivity.
Qed.

(** C2, as the specification states it, fails: under the default binding
    the token ["&icon-name:mod1,,mod2;"] is not matched at all. *)
Lemma empty_entry_counterexample :
  exists p,
    bound "icon-" "" = Py.Ok p
    /\ Re.search (compiled_re p) "&icon-name:mod1,,mod2;" 0 = None
    /\ apply_pattern p "&icon-name:mod1,,mod2;" 0 = Py.Ok None.
Proof.
  eexists. split; [vm_compute; reflexivity|].
  split; vm_compute; reflexivity.
Qed.

(** C3 at the failing inputs.  The marker is spliced into the pattern as it
    is: with the marker ["fa."] the text ["&faXhtml5;"], which does not hold
    the marker, is taken for a token and rendered with the class
    ["fa.html5"]; with the marker ["+"] the text ["&&html5;"] is taken for
    one; and the marker ["("] makes the pattern fail to compile. *)
Theorem marker_read_as_pattern :
  (exists p,
     bound "fa." "" = Py.Ok p
     /\ apply_pattern p "&faXhtml5;" 0 = Py.Ok (Some (icon "fa.html5", 0, 10)))
  /\ (exists p,
        bound "+" "" = Py.Ok p
        /\ apply_pattern p "&&html5;" 0 = Py.Ok (Some (icon "+html5", 0, 8))
        /\ apply_pattern p "&+html5;" 0 = Py.Ok None)
  /\ (exists msg, bound "(" "" = Py.Raise (Py.re_error msg)).
Proof.
  split; [|split].
  - eexists. split; vm_compute; reflexivity.
  - eexists. split; [|split]; vm_compute; reflexivity.
  - eexists. vm_compute. reflexivity.
Qed.

(** C4, as the specification states it, fails: a pair whose marker is
    exactly the default prefix raises nothing.  Setup succeeds and both
    bindings are registered, under two names, with the same marker. *)
Lemma colliding_marker_counterexample :
  exists md',
    extendMarkdown (mkConfig "icon-" "" [("icon-", "fa")]) (mkMarkdown [])
    = Py.Ok md'
    /\ Registry.registered_names (inlinePatterns md')
       = ["iconfonts"; "iconfonts_icon"]
    /\ map (fun e => (_prefix (Registry.e_item e), _base (Registry.e_item e)))
         (inlinePatterns md')
       = [("icon-", ""); ("icon-", "fa")].
Proof. eexists. split; [vm_compute; reflexivity|]. split; reflexivity. Qed.

(** C4, as the code has it.  The extension checks nothing about the
    pairing of markers and bases.  Setup raises exactly when the pattern
    built from one of the markers fails to compile, which happens while the
    bindings are registered.  When every marker is plain it does not raise,
    whether or not markers collide: the default binding is registered as
    [iconfonts] and every pair under its own name. *)
Theorem setup_raises_only_from_compile :
  forall self md,
    ((exists e, extendMarkdown self md = Py.Raise e)
     <-> (exists marker e,
            In marker (prefix self :: map fst (prefix_base_pairs self))
            /\ Re.compile ("&" ++ marker ++ ICON_RE) = Py.Raise e))
    /\ (plain_marker (prefix self) = true ->
        Forall (fun q => plain_marker (fst q) = true) (prefix_base_pairs self) ->
        exists md',
          extendMarkdown self md = Py.Ok md'
          /\ Registry.get (inlinePatterns md') "iconfonts"
             = Some (plain_processor (prefix self) (base self))
          /\ forall q, In q (prefix_base_pairs self) ->
               In (pair_name (fst q))
                 (Registry.registered_names (inlinePatterns md'))).
Proof.
  intros self md. split; [split|].
  - intros (e & H). unfold extendMarkdown, IconFontsPattern_init in H.
    destruct (Re.compile ("&" ++ prefix self ++ ICON_RE)) as [re|e0] eqn:E.
    + cbn [Py.bind] in H. apply fold_register_raise_inv in H.
      destruct H as (q & Hin & Hq). exists (fst q), e.
      split; [right; apply in_map; assumption | assumption].
    + cbn [Py.bind] in H. injection H as ->. exists (prefix self), e.
      split; [left; reflexivity | assumption].
  - intros (marker & e & [<-|Hin] & Hc);
      unfold extendMarkdown, IconFontsPattern_init.
    + rewrite Hc. cbn [Py.bind]. eauto.
    + destruct (Re.compile ("&" ++ prefix self ++ ICON_RE)) as [re|e0];
        cbn [Py.bind]; [|eauto].
      apply in_map_iff in Hin. destruct Hin as (q & <- & Hin).
      eapply fold_register_raises; eassumption.
  - intros Hp Hl. rewrite extendMarkdown_plain by assumption.
    eexists. split; [reflexivity|]. cbn [inlinePatterns]. split.
    + destruct (fold_register_plain_other "iconfonts" (prefix_base_pairs self)
                  (Registry.register (inlinePatterns md)
                     (plain_processor (prefix self) (base self)) "iconfonts" 175))
        as [-> _].
      * apply Forall_forall. intros q _. apply pair_name_not_default.
      * apply get_register_same.
    + intros q Hq. apply fold_register_plain_names. right. exists q. auto.
Qed.

Lemma setup_raises_only_from_compile_witness :
  plain_marker "icon-" = true
  /\ Forall (fun q => plain_marker (fst q) = true) [("icon-", "fa")]
  /\ exists md',
       extendMarkdown (mkConfig "icon-" "" [("icon-", "fa")]) (mkMarkdown [])
       = Py.Ok md'
       /\ Registry.get (inlinePatterns md') "iconfonts"
          = Some (plain_processor "icon-" "")
       /\ forall q, In q [("icon-", "fa")] ->
            In (pair_name (fst q))
              (Registry.registered_names (inlinePatterns md')).
Proof.
  split; [reflexivity|]. split; [repeat constructor|].
  apply (proj2 (setup_raises_only_from_compile
                  (mkConfig "icon-" "" [("icon-", "fa")]) (mkMarkdown []))).
  - reflexivity.
  - repeat constructor.
Defined.

(** C5. A token that does not reach its [;] is never matched: when the
    legal characters after the marker are followed by the end of the input
    or by a character that is neither legal nor the terminator, there is no
    match at that [&], for every plain marker; and in a text without any
    [;] the processor finds nothing, so the text is left as it is. *)
Theorem unterminated_token_never_matches :
  forall marker base p w rest,
    plain_marker marker = true ->
    bound marker base = Py.Ok p ->
    Re.all_chars body_char w = true ->
    unterminated rest = true ->
    Re.match_here (Re.expr (compiled_re p)) ("&" ++ marker ++ w ++ rest) = None
    /\ forall data pos,
         contains ";" data = false -> apply_pattern p data pos = Py.Ok None.
Proof.
  intros marker base p w rest Hplain Hb Hw Hr. split.
  - rewrite bound_plain in Hb by assumption. injection Hb as <-.
    cbn [compiled_re Re.expr]. apply unterminated_no_match; assumption.
  - intros data pos Hd. unfold apply_pattern.
    destruct (Re.search (compiled_re p) data pos) as [m|] eqn:E; [|reflexivity].
    exfalso.
    destruct (search_token _ _ _ _ _ _ Hplain Hb E)
      as (name & colons & mods & umods & _ & _ & _ & _ & Hsub & _).
    pose proof (token_has_terminator marker name colons mods umods) as Ht.
    rewrite <- Hsub in Ht. apply contains_substring in Ht. congruence.
Qed.

Lemma unterminated_token_never_matches_witness :
  plain_marker "icon-" = true
  /\ bound "icon-" "" = Py.Ok (plain_processor "icon-" "")
  /\ Re.all_chars body_char "html5:2x" = true
  /\ unterminated " and more" = true
  /\ Re.match_here (Re.expr (compiled_re (plain_processor "icon-" "")))
       ("&" ++ "icon-" ++ "html5:2x" ++ " and more") = None
  /\ forall data pos,
       contains ";" data = false ->
       apply_pattern (plain_processor "icon-" "") data pos = Py.Ok None.
Proof.
  split; [reflexivity|]. split; [vm_compute; reflexivity|].
  split; [reflexivity|]. split; [reflexivity|].
  apply (unterminated_token_never_matches "icon-" "").
  - reflexivity.
  - vm_compute. reflexivity.
  - reflexivity.
  - reflexivity.
Defined.

(** C6. For every name in [[A-Za-z0-9-]+], the text ["&icon-" ++ name ++ ";"]
    under the default binding is matched whole and composed to the class
    string ["icon-" ++ name]. *)
Theorem simple_token_class :
  forall name,
    valid_name name = true ->
    exists p,
      bound (prefix default_config) (base default_config) = Py.Ok p
      /\ apply_pattern p ("&icon-" ++ name ++ ";") 0
         = Py.Ok (Some (icon ("icon-" ++ name), 0, 7 + String.length name)).
Proof.
  intros name Hname. exists (plain_processor "icon-" "").
  split; [apply bound_plain; reflexivity|].
  unfold apply_pattern, Re.search. cbn [Nat.min Re.skip].
  pose proof (match_here_simple "icon-" name "" Hname) as Hm.
  change ("&" ++ "icon-" ++ name ++ ";" ++ "") with ("&icon-" ++ name ++ ";") in Hm.
  rewrite (search_from_hit (compiled_re (plain_processor "icon-" "")) _ _ _ 0 Hm).
  cbn [Py.bind]. unfold Re.groupdict. cbn.
  rewrite length_append. cbn. 
  replace (String.length name + 1 - 0) with (String.length name + 1) by lia.
  replace (S (S (S (S (S (S (String.length name + 1)))))))
    with (S (S (S (S (S (S (S (String.length name)))))))) by lia.
  reflexivity.
Qed.

Lemma simple_token_class_witness :
  valid_name "html5" = true
  /\ exists p,
       bound (prefix default_config) (base default_config) = Py.Ok p
       /\ apply_pattern p ("&icon-" ++ "html5" ++ ";") 0
          = Py.Ok (Some (icon ("icon-" ++ "html5"), 0, 7 + String.length "html5")).
Proof.
  split; [reflexivity|]. apply (simple_token_class "html5"). reflexivity.
Defined.

(** C7, as the specification states it, fails: the base goes into the class
    string as it is, so a base with a [;] and two spaces in a row puts both
    into the class string of a matched token. *)
Lemma class_invariant_counterexample :
  exists p,
    bound "icon-" "fa;  x" = Py.Ok p
    /\ apply_pattern p "&icon-html5;" 0
       = Py.Ok (Some (icon "fa;  x icon-html5", 0, 12))
    /\ contains ";" "fa;  x icon-html5" = true
    /\ has_double_space "fa;  x icon-html5" = true.
Proof.
  eexists. split; [vm_compute; reflexivity|].
  repeat split; vm_compute; reflexivity.
Qed.

(** C7, as the code has it.  For every binding whose marker is plain and
    whose marker and base hold no [&] and no [;], no two spaces in a row,
    no space at the start of the marker and none at the end of the base:
    the class string of every matched token lists its segments from left
    to right (base, marker and name, marked modifiers, user modifiers, in
    the order of the text), holds neither [&] nor [;], and never two
    spaces in a row. *)
Theorem class_string_invariant :
  forall marker base p data pos m,
    plain_marker marker = true ->
    clean_marker marker = true ->
    clean_base base = true ->
    bound marker base = Py.Ok p ->
    Re.search (compiled_re p) data pos = Some m ->
    exists name colons mods umods cls,
      well_formed name colons mods umods
      /\ String.substring (Re.m_start m) (Re.m_end m - Re.m_start m) data
         = "&" ++ marker ++ token_body name colons mods umods
      /\ handleMatch p m data = Py.Ok (icon cls, Re.m_start m, Re.m_end m)
      /\ cls = Py.join " " (segments marker base name mods umods)
      /\ contains "&" cls = false
      /\ contains ";" cls = false
      /\ has_double_space cls = false.
Proof.
  intros marker base p data pos m Hplain Hcm Hcb Hb Hs.
  destruct (search_token _ _ _ _ _ _ Hplain Hb Hs)
    as (name & colons & mods & umods & Hwf & _ & _ & _ & Hsub & Hgd).
  exists name, colons, mods, umods,
    (Py.join " " (segments marker base name mods umods)).
  unfold clean_marker in Hcm. unfold clean_base in Hcb.
  repeat (apply andb_prop in Hcm; destruct Hcm as [Hcm ?]).
  repeat (apply andb_prop in Hcb; destruct Hcb as [Hcb ?]).
  repeat match goal with
         | H : negb ?x = true |- _ => apply negb_true_iff in H
         end.
  pose proof Hwf as (Hn & Hm & Hu & _).
  split; [exact Hwf|]. split; [exact Hsub|]. split; [|split; [reflexivity|]].
  - rewrite bound_plain in Hb by assumption. injection Hb as <-.
    destruct m as [s e gd]. simpl in Hgd. subst gd.
    rewrite handleMatch_slots. cbn [_prefix _base plain_processor].
    rewrite (slots_segments marker base name colons mods umods Hwf).
    reflexivity.
  - split; [|split].
    + apply segments_no_char; auto.
    + apply segments_no_char; auto.
    + apply segments_no_double_space; auto.
Qed.

Lemma class_string_invariant_witness :
  plain_marker "fa-" = true
  /\ clean_marker "fa-" = true
  /\ clean_base "fa fa-fw" = true
  /\ bound "fa-" "fa fa-fw" = Py.Ok (plain_processor "fa-" "fa fa-fw")
  /\ Re.search (compiled_re (plain_processor "fa-" "fa fa-fw"))
       "see &fa-spinner:2x,spin:red; now" 0
     = Some (Re.mkMatch 4 28 [("name", Some "spinner"); ("mod", Some "2x,spin");
                              ("user_mod", Some "red")])
  /\ exists name colons mods umods cls,
       well_formed name colons mods umods
       /\ String.substring 4 (28 - 4) "see &fa-spinner:2x,spin:red; now"
          = "&" ++ "fa-" ++ token_body name colons mods umods
       /\ handleMatch (plain_processor "fa-" "fa fa-fw")
            (Re.mkMatch 4 28 [("name", Some "spinner"); ("mod", Some "2x,spin");
                              ("user_mod", Some "red")])
            "see &fa-spinner:2x,spin:red; now"
          = Py.Ok (icon cls, 4, 28)
       /\ cls = Py.join " " (segments "fa-" "fa fa-fw" name mods umods)
       /\ contains "&" cls = false
       /\ contains ";" cls = false
       /\ has_double_space cls = false.
Proof.
  split; [reflexivity|]. split; [reflexivity|]. split; [reflexivity|].
  split; [vm_compute; reflexivity|]. split; [vm_compute; reflexivity|].
  apply (class_string_invariant "fa-" "fa fa-fw"
           (plain_processor "fa-" "fa fa-fw")
           "see &fa-spinner:2x,spin:red; now" 0
           (Re.mkMatch 4 28 [("name", Some "spinner"); ("mod", Some "2x,spin");
                             ("user_mod", Some "red")])).
  - reflexivity.
  - reflexivity.
  - reflexivity.
  - vm_compute. reflexivity.
  - vm_compute. reflexivity.
Defined.

(** C8. Under a binding with the empty marker the terminator is still
    required: ["&html5;"] is matched and composed to the class ["html5"],
    ["&html5"] is not matched, and every match ends in a [;]. *)
Theorem empty_marker_needs_terminator :
  exists p,
    bound "" "" = Py.Ok p
    /\ apply_pattern p "&html5;" 0 = Py.Ok (Some (icon "html5", 0, 7))
    /\ apply_pattern p "&html5" 0 = Py.Ok None
    /\ forall data pos m,
         Re.search (compiled_re p) data pos = Some m ->
         exists body,
           String.substring (Re.m_start m) (Re.m_end m - Re.m_start m) data
           = "&" ++ body ++ ";".
Proof.
  exists (plain_processor "" "").
  split; [vm_compute; reflexivity|].
  split; [vm_compute; reflexivity|]. split; [vm_compute; reflexivity|].
  intros data pos m Hs.
  assert (Hb : bound "" "" = Py.Ok (plain_processor "" ""))
    by (apply bound_plain; reflexivity).
  destruct (search_token "" "" _ _ _ _ eq_refl Hb Hs)
    as (name & colons & mods & umods & Hwf & _ & _ & _ & Hsub & _).
  destruct (token_body_chars _ _ _ _ Hwf) as (body & Hbody & _).
  exists body. rewrite Hsub, Hbody. reflexivity.
Qed.

(** C9. For every matched token the composer returns an [i] element with
    exactly two attributes, [class] and [aria-hidden] set to ["true"], and
    no content, together with the start and the end of the match; for a
    plain marker that span is within the text at or after the scan offset
    and covers exactly the token: the [&], the marker, the body and the
    [;]. *)
Theorem emitted_element_and_span :
  (forall self s e name mod_ user_mod data,
     exists el cls,
       handleMatch self
         (Re.mkMatch s e [("name", name); ("mod", mod_); ("user_mod", user_mod)])
         data
       = Py.Ok (el, s, e)
       /\ etree.tag el = "i"
       /\ etree.attrib el = [("class", cls); ("aria-hidden", "true")]
       /\ etree.text el = None
       /\ etree.children el = [])
  /\ (forall marker base p data pos m,
        plain_marker marker = true ->
        bound marker base = Py.Ok p ->
        Re.search (compiled_re p) data pos = Some m ->
        exists el cls name colons mods umods,
          handleMatch p m data = Py.Ok (el, Re.m_start m, Re.m_end m)
          /\ etree.tag el = "i"
          /\ etree.attrib el = [("class", cls); ("aria-hidden", "true")]
          /\ etree.text el = None
          /\ etree.children el = []
          /\ pos <= Re.m_start m /\ Re.m_start m <= Re.m_end m
          /\ Re.m_end m <= String.length data
          /\ well_formed name colons mods umods
          /\ String.substring (Re.m_start m) (Re.m_end m - Re.m_start m) data
             = "&" ++ marker ++ token_body name colons mods umods).
Proof.
  split.
  - intros. eexists. eexists. rewrite handleMatch_slots.
    split; [reflexivity|]. repeat split.
  - intros marker base p data pos m Hplain Hb Hs.
    destruct (search_token _ _ _ _ _ _ Hplain Hb Hs)
      as (name & colons & mods & umods & Hwf & H1 & H2 & H3 & Hsub & Hgd).
    destruct m as [s e gd]. simpl in Hgd. subst gd.
    eexists. eexists. exists name, colons, mods, umods.
    rewrite handleMatch_slots.
    split; [reflexivity|]. cbn [etree.tag etree.attrib etree.text etree.children icon].
    repeat split; assumption || apply Hwf.
Qed.

Lemma emitted_element_and_span_witness :
  plain_marker "glyphicon-" = true
  /\ bound "glyphicon-" "glyphicon"
     = Py.Ok (plain_processor "glyphicon-" "glyphicon")
  /\ Re.search (compiled_re (plain_processor "glyphicon-" "glyphicon"))
       "x &glyphicon-remove; y" 1
     = Some (Re.mkMatch 2 20 [("name", Some "remove"); ("mod", None);
                              ("user_mod", None)])
  /\ exists el cls name colons mods umods,
       handleMatch (plain_processor "glyphicon-" "glyphicon")
         (Re.mkMatch 2 20 [("name", Some "remove"); ("mod", None);
                           ("user_mod", None)])
         "x &glyphicon-remove; y"
       = Py.Ok (el, 2, 20)
       /\ etree.tag el = "i"
       /\ etree.attrib el = [("class", cls); ("aria-hidden", "true")]
       /\ etree.text el = None
       /\ etree.children el = []
       /\ 1 <= 2 /\ 2 <= 20
       /\ 20 <= String.length "x &glyphicon-remove; y"
       /\ well_formed name colons mods umods
       /\ String.substring 2 (20 - 2) "x &glyphicon-remove; y"
          = "&" ++ "glyphicon-" ++ token_body name colons mods umods.
Proof.
  split; [reflexivity|]. split; [vm_compute; reflexivity|].
  split; [vm_compute; reflexivity|].
  apply (proj2 emitted_element_and_span "glyphicon-" "glyphicon"
           (plain_processor "glyphicon-" "glyphicon")
           "x &glyphicon-remove; y" 1
           (Re.mkMatch 2 20 [("name", Some "remove"); ("mod", None);
                             ("user_mod", None)])).
  - reflexivity.
  - vm_compute. reflexivity.
  - vm_compute. reflexivity.
Defined.

Lemma empty_marker_needs_terminator_witness :
  exists p,
    bound "" "" = Py.Ok p
    /\ Re.search (compiled_re p) "a &html5:2x; b" 0
       = Some (Re.mkMatch 2 12 [("name", Some "html5"); ("mod", Some "2x");
                                ("user_mod", None)])
    /\ exists body, String.substring 2 (12 - 2) "a &html5:2x; b" = "&" ++ body ++ ";".
Proof.
  destruct empty_marker_needs_terminator as (p & Hb & _ & _ & H).
  exists p. split; [exact Hb|].
  assert (Hs : Re.search (compiled_re p) "a &html5:2x; b" 0
               = Some (Re.mkMatch 2 12 [("name", Some "html5"); ("mod", Some "2x");
                                        ("user_mod", None)])).
  { vm_compute in Hb. injection Hb as <-. vm_compute. reflexivity. }
  split; [exact Hs|]. exact (H "a &html5:2x; b" 0 _ Hs).
Defined.

(** C10. A pair is registered under ["iconfonts_"] followed by its marker
    without its trailing hyphens.  So when two pairs have markers that
    differ only in trailing hyphens they get the same name: setup raises
    nothing, the registry holds one processor under that name, and it is
    not the processor of the earlier pair but that of a pair registered
    after it under the same name: the later pair itself, unless yet
    another pair of that name follows. *)
Theorem later_pair_replaces_earlier :
  forall self md l1 p1 b1 l2 p2 b2 l3,
    prefix_base_pairs self
    = List.app l1 ((p1, b1) :: List.app l2 ((p2, b2) :: l3)) ->
    NoDup (map fst (prefix_base_pairs self)) ->
    plain_marker (prefix self) = true ->
    Forall (fun q => plain_marker (fst q) = true) (prefix_base_pairs self) ->
    Py.rstrip "-" p1 = Py.rstrip "-" p2 ->
    exists md' q1,
      extendMarkdown self md = Py.Ok md'
      /\ bound p1 b1 = Py.Ok q1
      /\ (exists n1 n2, p1 = Py.rstrip "-" p1 ++ hyphens n1
                        /\ p2 = Py.rstrip "-" p1 ++ hyphens n2
                        /\ ends_with "-" (Py.rstrip "-" p1) = false)
      /\ pair_name p1 = "iconfonts_" ++ Py.rstrip "-" p1
      /\ pair_name p2 = pair_name p1
      /\ count_occ string_dec
           (Registry.registered_names (inlinePatterns md')) (pair_name p1)
         = 1
      /\ Registry.get (inlinePatterns md') (pair_name p1) <> Some q1
      /\ exists p' b' q',
           In (p', b') ((p2, b2) :: l3)
           /\ pair_name p' = pair_name p1
           /\ bound p' b' = Py.Ok q'
           /\ Registry.get (inlinePatterns md') (pair_name p1) = Some q'
           /\ (Forall (fun q => pair_name (fst q) <> pair_name p1) l3 ->
               p' = p2 /\ b' = b2).
Proof.
  intros self md l1 p1 b1 l2 p2 b2 l3 Hpairs Hnd Hp Hl Hstrip.
  assert (Hname : pair_name p2 = pair_name p1)
    by (unfold pair_name; rewrite Hstrip; reflexivity).
  assert (Hp1 : plain_marker p1 = true).
  { rewrite Hpairs in Hl. apply Forall_app in Hl. destruct Hl as [_ Hl].
    inversion Hl; assumption. }
  assert (Hlate : Forall (fun q => plain_marker (fst q) = true /\ fst q <> p1)
                    ((p2, b2) :: l3)).
  { rewrite Hpairs in Hl, Hnd. apply Forall_app in Hl. destruct Hl as [_ Hl].
    inversion Hl as [|? ? _ Hl']; subst. apply Forall_app in Hl'.
    destruct Hl' as [_ Hl'].
    rewrite map_app in Hnd. apply NoDup_app_remove_l in Hnd.
    cbn [map fst] in Hnd. inversion Hnd as [|? ? Hnotin _]; subst.
    rewrite map_app in Hnotin.
    apply Forall_forall. intros q Hq. split.
    - rewrite Forall_forall in Hl'. apply Hl'. exact Hq.
    - intros E. apply Hnotin. apply in_or_app. right.
      rewrite <- E. apply in_map. exact Hq. }
  exists (mkMarkdown
            (fold_left register_plain (prefix_base_pairs self)
               (Registry.register (inlinePatterns md)
                  (plain_processor (prefix self) (base self)) "iconfonts" 175))),
    (plain_processor p1 b1).
  split; [apply extendMarkdown_plain; assumption|].
  split; [apply bound_plain; assumption|].
  split.
  { destruct (rstrip_spec p1) as (n1 & H1 & He).
    destruct (rstrip_spec p2) as (n2 & H2 & _).
    exists n1, n2. split; [exact H1|]. split; [rewrite Hstrip; exact H2 | exact He]. }
  split; [reflexivity|]. split; [exact Hname|].
  cbn [inlinePatterns]. rewrite Hpairs.
  rewrite fold_left_app. cbn [fold_left]. rewrite fold_left_app. cbn [fold_left].
  set (reg := fold_left register_plain l2 _).
  destruct (fold_register_plain_last l3 (register_plain reg (p2, b2)) p2 b2)
    as (p' & b' & Hin & Hn' & Hget & Hcount).
  { unfold register_plain. apply get_register_same. }
  { unfold register_plain. apply count_register_same. }
  rewrite Hname in Hget, Hcount, Hn'.
  rewrite Forall_forall in Hlate. destruct (Hlate (p', b') Hin) as [Hplain' Hne'].
  cbn [fst] in Hplain', Hne'.
  split; [exact Hcount|]. split.
  - rewrite Hget. intros E. apply Hne'. injection E. intros. congruence.
  - exists p', b', (plain_processor p' b').
    split; [exact Hin|]. split; [exact Hn'|].
    split; [apply bound_plain; assumption|]. split; [exact Hget|].
    intros Hl3. destruct Hin as [E|Hin]; [injection E as <- <-; auto|].
    exfalso. rewrite Forall_forall in Hl3. exact (Hl3 _ Hin Hn').
Qed.

Lemma later_pair_replaces_earlier_witness :
  prefix_base_pairs (mkConfig "icon-" "" [("fa-", "fa"); ("fa", "fb")])
  = List.app [] (("fa-", "fa") :: List.app [] (("fa", "fb") :: []))
  /\ NoDup (map fst [("fa-", "fa"); ("fa", "fb")])
  /\ Py.rstrip "-" "fa-" = Py.rstrip "-" "fa"
  /\ exists md' q1,
       extendMarkdown (mkConfig "icon-" "" [("fa-", "fa"); ("fa", "fb")])
         (mkMarkdown [])
       = Py.Ok md'
       /\ bound "fa-" "fa" = Py.Ok q1
       /\ (exists n1 n2, "fa-" = Py.rstrip "-" "fa-" ++ hyphens n1
                         /\ "fa" = Py.rstrip "-" "fa-" ++ hyphens n2
                         /\ ends_with "-" (Py.rstrip "-" "fa-") = false)
       /\ pair_name "fa-" = "iconfonts_" ++ Py.rstrip "-" "fa-"
       /\ pair_name "fa" = pair_name "fa-"
       /\ count_occ string_dec
            (Registry.registered_names (inlinePatterns md')) (pair_name "fa-")
          = 1
       /\ Registry.get (inlinePatterns md') (pair_name "fa-") <> Some q1
       /\ exists p' b' q',
            In (p', b') [("fa", "fb")]
            /\ pair_name p' = pair_name "fa-"
            /\ bound p' b' = Py.Ok q'
            /\ Registry.get (inlinePatterns md') (pair_name "fa-") = Some q'
            /\ (Forall (fun q : string * string =>
                          pair_name (fst q) <> pair_name "fa-") [] ->
                p' = "fa" /\ b' = "fb").
Proof.
  assert (Hnd : NoDup (map fst [("fa-", "fa"); ("fa", "fb")])).
  { cbn [map fst]. constructor.
    - intros [E|[]]. discriminate E.
    - constructor; [intros [] | constructor]. }
  split; [reflexivity|]. split; [exact Hnd|]. split; [reflexivity|].
  apply (later_pair_replaces_earlier
           (mkConfig "icon-" "" [("fa-", "fa"); ("fa", "fb")]) (mkMarkdown [])
           [] "fa-" "fa" [] "fa" "fb" []).
  - reflexivity.
  - exact Hnd.
  - reflexivity.
  - repeat constructor.
  - reflexivity.
Defined.

(** * Further properties of the code *)

(** ** Every well-formed token is matched *)

Lemma name_start_spec (s : string) :
  name_start s = false -> forall a t, s = String a t -> name_char a = false.
Proof. intros H a t ->. exact H. Qed.

Lemma matchk_plus_none (k : Re.cont) (s : string) (c : Re.caps) :
  name_start s = false -> Re.matchk (Re.Plus name_set) k s c = None.
Proof.
  intros H. cbn [Re.matchk]. destruct s as [|a t].
  - reflexivity.
  - rewrite matchk_name_set. simpl in H. rewrite H. reflexivity.
Qed.

Lemma matchk_plus_greedy (k : Re.cont) (res : string * Re.caps)
  (w s' : string) (c : Re.caps) :
  valid_name w = true -> name_start s' = false -> k s' c = Some res ->
  Re.matchk (Re.Plus name_set) k (w ++ s') c = Some res.
Proof.
  unfold valid_name. intros Hw Hs' Hk.
  destruct w as [|a w]; [discriminate|]. simpl in Hw.
  apply andb_prop in Hw. destruct Hw as [Ha Hw].
  cbn [Re.matchk]. change (String a w ++ s') with (String a (w ++ s')).
  rewrite matchk_name_set, Ha.
  apply star_loop_greedy.
  - apply name_start_spec. exact Hs'.
  - exact Hk.
  - exact Hw.
  - lia.
Qed.

Lemma join_tail_text (e : string) (es : list string) :
  Py.join "," (e :: es) = e ++ tail_text es.
Proof.
  revert e. induction es as [|e' es IH]; intros e.
  - simpl. symmetry. apply append_nil_r.
  - change (Py.join "," (e :: e' :: es)) with (e ++ "," ++ Py.join "," (e' :: es)).
    rewrite IH. reflexivity.
Qed.

Lemma star_entries_greedy (k : Re.cont) (res : string * Re.caps) (s' : string)
  (c : Re.caps) :
  name_start s' = false -> starts_with "," s' = false -> k s' c = Some res ->
  forall es n,
    Forall (fun e => valid_name e = true) es ->
    String.length (tail_text es ++ s') <= n ->
    Re.star_loop
      (Re.matchk (Re.Group None (Re.Cat (Re.Lit ",") (Re.Plus name_set))))
      n k (tail_text es ++ s') c
    = Some res.
Proof.
  intros Hn Hc Hk. induction es as [|e es IH]; intros n Hes Hlen.
  - change (tail_text [] ++ s') with s'. destruct n as [|n]; [exact Hk|].
    rewrite star_loop_S. cbn [Re.matchk]. destruct s' as [|a t]; [exact Hk|].
    simpl in Hc. rewrite Ascii.eqb_sym in Hc. rewrite Hc. exact Hk.
  - inversion Hes as [|? ? He Hes']; subst.
    change (tail_text (e :: es) ++ s')
      with (String "," ((e ++ tail_text es) ++ s')) in *.
    rewrite append_assoc in *.
    destruct n as [|n]; [simpl in Hlen; lia|].
    rewrite star_loop_S. cbn [Re.matchk]. rewrite Ascii.eqb_refl.
    change (Re.matchk name_set
              (fun s1 c1 =>
                 Re.star_loop (Re.matchk name_set) (String.length s1)
                   ?k1 s1 c1))
      with (Re.matchk (Re.Plus name_set) k1).
    rewrite (matchk_plus_greedy _ res); [reflexivity | exact He | |].
    + destruct es as [|e' es']; [exact Hn | reflexivity].
    + simpl String.length in *.
      rewrite length_append in Hlen.
      replace (Nat.ltb (String.length (tail_text es ++ s'))
                 (S (String.length (e ++ tail_text es ++ s'))))
        with true
        by (symmetry; apply Nat.ltb_lt; rewrite (length_append e); lia).
      apply IH; [exact Hes' | lia].
Qed.

Lemma matchk_entries_greedy (k : Re.cont) (res : string * Re.caps)
  (e : string) (es : list string) (s' : string) (c : Re.caps) :
  Forall (fun x => valid_name x = true) (e :: es) ->
  name_start s' = false -> starts_with "," s' = false -> k s' c = Some res ->
  Re.matchk entries_expr k (Py.join "," (e :: es) ++ s') c = Some res.
Proof.
  intros Hes Hn Hc Hk. inversion Hes as [|? ? He Hes']; subst.
  rewrite join_tail_text, append_assoc. unfold entries_expr.
  cbn [Re.matchk].
  change (Re.matchk name_set
            (fun s1 c1 =>
               Re.star_loop (Re.matchk name_set) (String.length s1) ?k1 s1 c1))
    with (Re.matchk (Re.Plus name_set) k1).
  apply matchk_plus_greedy; [exact He | |].
  - destruct es as [|e' es']; [exact Hn | reflexivity].
  - apply star_entries_greedy; auto.
Qed.

Lemma matchk_cat (r1 r2 : Re.regex) (k : Re.cont) (s : string) (c : Re.caps) :
  Re.matchk (Re.Cat r1 r2) k s c = Re.matchk r1 (Re.matchk r2 k) s c.
Proof. reflexivity. Qed.

Lemma matchk_opt (r : Re.regex) (k : Re.cont) (s : string) (c : Re.caps) :
  Re.matchk (Re.Opt r) k s c
  = match Re.matchk r k s c with
    | Some x => Some x
    | None => k s c
    end.
Proof. reflexivity. Qed.

Lemma matchk_group_none (r : Re.regex) (k : Re.cont) (s : string) (c : Re.caps) :
  Re.matchk (Re.Group None r) k s c = Re.matchk r k s c.
Proof. reflexivity. Qed.

Lemma matchk_group_some (n : string) (r : Re.regex) (k : Re.cont) (s : string)
  (c : Re.caps) :
  Re.matchk (Re.Group (Some n) r) k s c
  = Re.matchk r (fun s1 c1 => k s1 (Py.dict_set c1 n (Re.consumed s s1))) s c.
Proof. reflexivity. Qed.

Lemma matchk_lit_hit (a : ascii) (k : Re.cont) (t : string) (c : Re.caps) :
  Re.matchk (Re.Lit a) k (String a t) c = k t c.
Proof. cbn [Re.matchk]. rewrite Ascii.eqb_refl. reflexivity. Qed.

Lemma matchk_lit_miss (a b : ascii) (k : Re.cont) (t : string) (c : Re.caps) :
  Ascii.eqb a b = false -> Re.matchk (Re.Lit a) k (String b t) c = None.
Proof. intros H. cbn [Re.matchk]. rewrite H. reflexivity. Qed.

Lemma matchk_entries_none (k : Re.cont) (s : string) (c : Re.caps) :
  name_start s = false -> Re.matchk entries_expr k s c = None.
Proof.
  intros H. unfold entries_expr. rewrite matchk_cat.
  apply matchk_plus_none. exact H.
Qed.

Lemma matchk_opt_block (n : string) (k : Re.cont) (res : string * Re.caps)
  (es : list string) (s' : string) (c : Re.caps) :
  Forall (fun x => valid_name x = true) es ->
  name_start s' = false -> starts_with "," s' = false ->
  k s' match es with
       | [] => c
       | _ :: _ => Py.dict_set c n (Py.join "," es)
       end
  = Some res ->
  Re.matchk (Re.Opt (Re.Group (Some n) entries_expr)) k (Py.join "," es ++ s') c
  = Some res.
Proof.
  intros Hes Hn Hc Hk. rewrite matchk_opt, matchk_group_some.
  destruct es as [|e es].
  - change (Py.join "," [] ++ s') with s'.
    rewrite matchk_entries_none by exact Hn. exact Hk.
  - rewrite (matchk_entries_greedy _ res); auto.
    rewrite consumed_append. exact Hk.
Qed.

Lemma matchk_ICON_token (k : Re.cont) (res : string * Re.caps)
  (name : string) (colons : nat) (mods umods : list string) (rest : string) :
  well_formed name colons mods umods ->
  k rest (token_caps name mods umods) = Some res ->
  Re.matchk ICON_expr k (token_body name colons mods umods ++ rest) [] = Some res.
Proof.
  intros (Hname & Hmods & Humods & H0 & H1) Hk.
  unfold ICON_expr, icon_atoms. cbn [Re.mkseq].
  rewrite matchk_cat, matchk_group_some.
  unfold token_body. rewrite !append_assoc.
  apply matchk_plus_greedy; [exact Hname | destruct colons as [|[|n]]; reflexivity|].
  rewrite consumed_append. cbn [Py.dict_set].
  rewrite matchk_cat, matchk_opt, matchk_group_none, matchk_cat.
  destruct colons as [|colons].
  - rewrite (H0 eq_refl), (H1 (Nat.le_0_l 1)) in *.
    change ("" ++ ";" ++ rest) with (String ";" rest).
    rewrite matchk_lit_miss by reflexivity. rewrite matchk_lit_hit. exact Hk.
  - assert (Hsemi : forall c,
              Re.matchk
                (Re.Opt (Re.Group None
                   (Re.Cat (Re.Lit ":")
                      (Re.Opt (Re.Group (Some "user_mod") entries_expr)))))
                (Re.matchk (Re.Lit ";") k) (String ";" rest) c
              = k rest c).
    { intros c. rewrite matchk_opt, matchk_group_none, matchk_cat.
      rewrite matchk_lit_miss by reflexivity. apply matchk_lit_hit. }
    destruct colons as [|colons].
    + rewrite (H1 (le_n 1)) in *.
      change ((":" ++ Py.join "," mods) ++ ";" ++ rest)
        with (String ":" (Py.join "," mods ++ String ";" rest)).
      rewrite matchk_lit_hit, matchk_cat.
      rewrite (matchk_opt_block "mod" _ res); auto.
      rewrite Hsemi. destruct mods; exact Hk.
    + change ((":" ++ Py.join "," mods ++ ":" ++ Py.join "," umods) ++ ";" ++ rest)
        with (String ":" ((Py.join "," mods ++ String ":" (Py.join "," umods))
                          ++ String ";" rest)).
      rewrite append_assoc.
      rewrite matchk_lit_hit, matchk_cat.
      rewrite (matchk_opt_block "mod" _ res); auto.
      rewrite matchk_opt, matchk_group_none, matchk_cat.
      change (String ":" (Py.join "," umods) ++ String ";" rest)
        with (String ":" (Py.join "," umods ++ String ";" rest)).
      rewrite matchk_lit_hit.
      rewrite (matchk_opt_block "user_mod" _ res); auto.
      rewrite matchk_lit_hit. destruct mods, umods; exact Hk.
Qed.

Lemma match_here_token (marker name : string) (colons : nat)
  (mods umods : list string) (rest : string) :
  well_formed name colons mods umods ->
  Re.match_here (lits ("&" ++ marker) ICON_expr)
    (token_text marker name colons mods umods ++ rest)
  = Some (rest, token_caps name mods umods).
Proof.
  intros Hwf. unfold Re.match_here, token_text.
  change (("&" ++ marker ++ token_body name colons mods umods) ++ rest)
    with (String "&" ((marker ++ token_body name colons mods umods) ++ rest)).
  rewrite append_assoc.
  change (String "&" (marker ++ token_body name colons mods umods ++ rest))
    with (("&" ++ marker) ++ token_body name colons mods umods ++ rest).
  rewrite matchk_lits. apply matchk_ICON_token; [exact Hwf | reflexivity].
Qed.

Lemma search_from_skip_text (marker base : string) (mid s : string) :
  contains "&" mid = false ->
  forall i,
    Re.search_from (compiled_re (plain_processor marker base)) (mid ++ s) i
    = Re.search_from (compiled_re (plain_processor marker base)) s
        (i + String.length mid).
Proof.
  intros Hmid. induction mid as [|a mid IH]; intros i.
  - simpl. rewrite Nat.add_0_r. reflexivity.
  - simpl in Hmid. apply orb_false_elim in Hmid. destruct Hmid as [Ha Hmid].
    change (String a mid ++ s) with (String a (mid ++ s)).
    cbn [Re.search_from]. unfold Re.match_here at 1.
    cbn [compiled_re plain_processor Re.expr lits String.append].
    rewrite matchk_cat. rewrite matchk_lit_miss
      by (rewrite Ascii.eqb_sym; exact Ha).
    rewrite (IH Hmid). simpl String.length. f_equal. lia.
Qed.

Lemma skip_append (pre s : string) : Re.skip (String.length pre) (pre ++ s) = s.
Proof. induction pre as [|a pre IH]; [reflexivity | exact IH]. Qed.

Lemma groupdict_token (marker base name : string) (mods umods : list string) :
  Re.groupdict (compiled_re (plain_processor marker base))
    (token_caps name mods umods)
  = [("name", Some name); ("mod", raw_block mods); ("user_mod", raw_block umods)].
Proof. destruct mods, umods; reflexivity. Qed.

(** A well-formed token is found where it stands, when no [&] lies between
    the scan offset and the token, and is composed to its segments. *)
Lemma apply_pattern_token (marker base pre mid name : string) (colons : nat)
  (mods umods : list string) (rest : string) :
  well_formed name colons mods umods ->
  contains "&" mid = false ->
  apply_pattern (plain_processor marker base)
    (pre ++ mid ++ token_text marker name colons mods umods ++ rest)
    (String.length pre)
  = Py.Ok (Some (icon (Py.join " " (segments marker base name mods umods)),
                 String.length pre + String.length mid,
                 String.length pre + String.length mid
                 + String.length (token_text marker name colons mods umods))).
Proof.
  intros Hwf Hmid. unfold apply_pattern, Re.search.
  rewrite length_append, Nat.min_l by lia.
  rewrite skip_append, search_from_skip_text by exact Hmid.
  rewrite (search_from_hit (compiled_re (plain_processor marker base)) _ _ _ _
             (match_here_token marker name colons mods umods rest Hwf)).
  rewrite groupdict_token. cbn [Py.bind].
  rewrite handleMatch_slots. cbn [_prefix _base plain_processor].
  rewrite (slots_segments marker base name colons mods umods Hwf).
  rewrite length_append.
  replace (String.length (token_text marker name colons mods umods)
           + String.length rest - String.length rest)
    with (String.length (token_text marker name colons mods umods)) by lia.
  reflexivity.
Qed.

Lemma bound_plain_inv (marker base : string) (p : IconFontsPattern) :
  plain_marker marker = true -> bound marker base = Py.Ok p ->
  p = plain_processor marker base.
Proof.
  intros Hplain Hb. rewrite bound_plain in Hb by exact Hplain.
  injection Hb as <-. reflexivity.
Qed.

(** X1. Every well-formed token is recognised where it stands.  For a plain
    marker, a text that holds a token (the [&], the marker, a name, up to
    two colon-led lists of names, the [;]) with no [&] between the scan
    offset and the token is matched at exactly the token's span, whatever
    follows it, and composed to the class string of its segments. *)
Theorem well_formed_token_found :
  forall marker base p pre mid name colons mods umods rest,
    plain_marker marker = true ->
    bound marker base = Py.Ok p ->
    well_formed name colons mods umods ->
    contains "&" mid = false ->
    apply_pattern p
      (pre ++ mid ++ token_text marker name colons mods umods ++ rest)
      (String.length pre)
    = Py.Ok (Some (icon (Py.join " " (segments marker base name mods umods)),
                   String.length pre + String.length mid,
                   String.length pre + String.length mid
                   + String.length (token_text marker name colons mods umods))).
Proof.
  intros marker base p pre mid name colons mods umods rest Hplain Hb Hwf Hmid.
  apply bound_plain_inv in Hb; [subst p | exact Hplain].
  apply apply_pattern_token; assumption.
Qed.

Lemma well_formed_token_found_witness :
  plain_marker "fa-" = true
  /\ bound "fa-" "fa" = Py.Ok (plain_processor "fa-" "fa")
  /\ well_formed "spinner" 2 ["2x"; "spin"] ["red"]
  /\ contains "&" " then " = false
  /\ apply_pattern (plain_processor "fa-" "fa")
       ("&fa-home;" ++ " then "
        ++ token_text "fa-" "spinner" 2 ["2x"; "spin"] ["red"] ++ " done")
       (String.length "&fa-home;")
     = Py.Ok (Some (icon (Py.join " "
                            (segments "fa-" "fa" "spinner" ["2x"; "spin"] ["red"])),
                    String.length "&fa-home;" + String.length " then ",
                    String.length "&fa-home;" + String.length " then "
                    + String.length
                        (token_text "fa-" "spinner" 2 ["2x"; "spin"] ["red"]))).
Proof.
  assert (Hwf : well_formed "spinner" 2 ["2x"; "spin"] ["red"]).
  { unfold well_formed. repeat split; try (repeat constructor); try lia;
      try discriminate. }
  split; [reflexivity|]. split; [vm_compute; reflexivity|].
  split; [exact Hwf|]. split; [reflexivity|].
  apply (well_formed_token_found "fa-" "fa").
  - reflexivity.
  - vm_compute. reflexivity.
  - exact Hwf.
  - reflexivity.
Defined.

Lemma apply_pattern_token_alone (marker base name : string) (colons : nat)
  (mods umods : list string) :
  well_formed name colons mods umods ->
  apply_pattern (plain_processor marker base)
    (token_text marker name colons mods umods) 0
  = Py.Ok (Some (icon (Py.join " " (segments marker base name mods umods)),
                 0, String.length (token_text marker name colons mods umods))).
Proof.
  intros Hwf.
  pose proof (apply_pattern_token marker base "" "" name colons mods umods ""
                Hwf eq_refl) as H.
  rewrite append_nil_r in H. exact H.
Qed.

(** X2. Colons without entries change nothing: for a plain marker and a
    valid name, the token with no colon, with [:] and with [::] before the
    [;] are all matched whole and give the same element, with the class
    string of the name alone. *)
Theorem trailing_colons_change_nothing :
  forall marker base p name,
    plain_marker marker = true ->
    bound marker base = Py.Ok p ->
    valid_name name = true ->
    exists el n,
      el = icon (Py.join " " (segments marker base name [] []))
      /\ n = 2 + String.length marker + String.length name
      /\ apply_pattern p ("&" ++ marker ++ name ++ ";") 0 = Py.Ok (Some (el, 0, n))
      /\ apply_pattern p ("&" ++ marker ++ name ++ ":;") 0
         = Py.Ok (Some (el, 0, n + 1))
      /\ apply_pattern p ("&" ++ marker ++ name ++ "::;") 0
         = Py.Ok (Some (el, 0, n + 2)).
Proof.
  intros marker base p name Hplain Hb Hname.
  apply bound_plain_inv in Hb; [subst p | exact Hplain].
  assert (Hwf : forall colons, well_formed name colons [] []).
  { intros colons. unfold well_formed. repeat split; auto. }
  assert (Hlen : forall tail,
            String.length ("&" ++ marker ++ name ++ tail)
            = 1 + String.length marker + String.length name + String.length tail).
  { intros tail. simpl. rewrite !length_append. lia. }
  eexists. eexists. split; [reflexivity|]. split; [reflexivity|].
  split; [|split].
  - change ("&" ++ marker ++ name ++ ";") with (token_text marker name 0 [] []).
    rewrite (apply_pattern_token_alone _ _ _ _ _ _ (Hwf 0)).
    change (token_text marker name 0 [] []) with ("&" ++ marker ++ name ++ ";").
    rewrite Hlen. do 3 f_equal. cbn [String.length]. lia.
  - change ("&" ++ marker ++ name ++ ":;") with (token_text marker name 1 [] []).
    rewrite (apply_pattern_token_alone _ _ _ _ _ _ (Hwf 1)).
    change (token_text marker name 1 [] []) with ("&" ++ marker ++ name ++ ":;").
    rewrite Hlen. do 3 f_equal. cbn [String.length]. lia.
  - change ("&" ++ marker ++ name ++ "::;") with (token_text marker name 2 [] []).
    rewrite (apply_pattern_token_alone _ _ _ _ _ _ (Hwf 2)).
    change (token_text marker name 2 [] []) with ("&" ++ marker ++ name ++ "::;").
    rewrite Hlen. do 3 f_equal. cbn [String.length]. lia.
Qed.

Lemma trailing_colons_change_nothing_witness :
  plain_marker "icon-" = true
  /\ bound "icon-" "" = Py.Ok (plain_processor "icon-" "")
  /\ valid_name "html5" = true
  /\ exists el n,
       el = icon (Py.join " " (segments "icon-" "" "html5" [] []))
       /\ n = 2 + String.length "icon-" + String.length "html5"
       /\ apply_pattern (plain_processor "icon-" "") ("&" ++ "icon-" ++ "html5" ++ ";") 0
          = Py.Ok (Some (el, 0, n))
       /\ apply_pattern (plain_processor "icon-" "") ("&" ++ "icon-" ++ "html5" ++ ":;") 0
          = Py.Ok (Some (el, 0, n + 1))
       /\ apply_pattern (plain_processor "icon-" "") ("&" ++ "icon-" ++ "html5" ++ "::;") 0
          = Py.Ok (Some (el, 0, n + 2)).
Proof.
  split; [reflexivity|]. split; [vm_compute; reflexivity|]. split; [reflexivity|].
  apply (trailing_colons_change_nothing "icon-" "").
  - reflexivity.
  - vm_compute. reflexivity.
  - reflexivity.
Defined.

(** X3. The processor of a plain marker never raises: on every text and
    from every scan offset it returns either no match or an element with
    its span. *)
Theorem processing_never_raises :
  forall marker base p data pos,
    plain_marker marker = true ->
    bound marker base = Py.Ok p ->
    exists r, apply_pattern p data pos = Py.Ok r.
Proof.
  intros marker base p data pos Hplain Hb. unfold apply_pattern.
  destruct (Re.search (compiled_re p) data pos) as [m|] eqn:E; [|eauto].
  destruct (search_token _ _ _ _ _ _ Hplain Hb E)
    as (name & colons & mods & umods & _ & _ & _ & _ & _ & Hgd).
  destruct m as [s e gd]. simpl in Hgd. subst gd.
  rewrite handleMatch_slots. cbn [Py.bind]. eauto.
Qed.

Lemma processing_never_raises_witness :
  plain_marker "icon-" = true
  /\ bound "icon-" "" = Py.Ok (plain_processor "icon-" "")
  /\ exists r, apply_pattern (plain_processor "icon-" "") "&icon-;;&icon-a:,:;" 3
               = Py.Ok r.
Proof.
  split; [reflexivity|]. split; [vm_compute; reflexivity|].
  apply (processing_never_raises "icon-" "").
  - reflexivity.
  - vm_compute. reflexivity.
Defined.

Lemma substring_nil (n m : nat) : String.substring n m "" = "".
Proof. destruct n, m; reflexivity. Qed.

Lemma substring_skip (pos : nat) :
  forall a b data, pos <= a ->
    String.substring a b data = String.substring (a - pos) b (Re.skip pos data).
Proof.
  induction pos as [|pos IH]; intros a b data H.
  - simpl. rewrite Nat.sub_0_r. reflexivity.
  - destruct a as [|a]; [lia|]. destruct data as [|c t].
    + simpl Re.skip. rewrite !substring_nil. reflexivity.
    + simpl. apply IH. lia.
Qed.

(** X4. A text with no [&] at or after the scan offset is never matched by
    the processor of a plain marker. *)
Theorem no_ampersand_no_match :
  forall marker base p data pos,
    plain_marker marker = true ->
    bound marker base = Py.Ok p ->
    contains "&" (Re.skip pos data) = false ->
    apply_pattern p data pos = Py.Ok None.
Proof.
  intros marker base p data pos Hplain Hb Hamp. unfold apply_pattern.
  destruct (Re.search (compiled_re p) data pos) as [m|] eqn:E; [|reflexivity].
  exfalso.
  destruct (search_token _ _ _ _ _ _ Hplain Hb E)
    as (name & colons & mods & umods & _ & Hpos & _ & _ & Hsub & _).
  rewrite (substring_skip pos) in Hsub by exact Hpos.
  assert (Hc : contains "&"
                 (String.substring (Re.m_start m - pos)
                    (Re.m_end m - Re.m_start m) (Re.skip pos data)) = true)
    by (rewrite Hsub; reflexivity).
  apply contains_substring in Hc. congruence.
Qed.

Lemma no_ampersand_no_match_witness :
  plain_marker "icon-" = true
  /\ bound "icon-" "" = Py.Ok (plain_processor "icon-" "")
  /\ contains "&" (Re.skip 9 "&icon-a; icon-b; end") = false
  /\ apply_pattern (plain_processor "icon-" "") "&icon-a; icon-b; end" 9
     = Py.Ok None.
Proof.
  split; [reflexivity|]. split; [vm_compute; reflexivity|].
  split; [reflexivity|].
  apply (no_ampersand_no_match "icon-" "").
  - reflexivity.
  - vm_compute. reflexivity.
  - reflexivity.
Defined.

Lemma segments_not_nil (marker base name : string) (mods umods : list string) :
  segments marker base name mods umods <> [].
Proof. unfold segments. destruct (Py.truthy base); discriminate. Qed.

(** X5. When neither the marker nor the base holds a space, splitting the
    class attribute of a matched token on spaces gives back exactly its
    segments: the base if there is one, the marker with the name, the
    marker with each modifier, and each user modifier; so the element has
    one class for each of them. *)
Theorem class_attribute_lists_the_segments :
  forall marker base p data pos m,
    plain_marker marker = true ->
    contains " " marker = false ->
    contains " " base = false ->
    bound marker base = Py.Ok p ->
    Re.search (compiled_re p) data pos = Some m ->
    exists name colons mods umods cls,
      well_formed name colons mods umods
      /\ String.substring (Re.m_start m) (Re.m_end m - Re.m_start m) data
         = token_text marker name colons mods umods
      /\ handleMatch p m data = Py.Ok (icon cls, Re.m_start m, Re.m_end m)
      /\ Py.split " " cls = segments marker base name mods umods
      /\ List.length (Py.split " " cls)
         = (if Py.truthy base then 1 else 0) + 1
           + List.length mods + List.length umods.
Proof.
  intros marker base p data pos m Hplain Hmk Hbase Hb Hs.
  destruct (search_token _ _ _ _ _ _ Hplain Hb Hs)
    as (name & colons & mods & umods & Hwf & _ & _ & _ & Hsub & Hgd).
  exists name, colons, mods, umods,
    (Py.join " " (segments marker base name mods umods)).
  pose proof Hwf as (Hn & Hm & Hu & _).
  split; [exact Hwf|]. split; [exact Hsub|]. split.
  { rewrite bound_plain in Hb by assumption. injection Hb as <-.
    destruct m as [s e gd]. simpl in Hgd. subst gd.
    rewrite handleMatch_slots. cbn [_prefix _base plain_processor].
    rewrite (slots_segments marker base name colons mods umods Hwf).
    reflexivity. }
  assert (Hsplit : Py.split " " (Py.join " " (segments marker base name mods umods))
                   = segments marker base name mods umods).
  { apply split_join; [|apply segments_not_nil].
    unfold segments. apply Forall_app. split.
    - destruct (Py.truthy base); repeat constructor. exact Hbase.
    - constructor.
      + rewrite contains_append, Hmk. simpl.
        apply valid_name_contains; [exact Hn | reflexivity].
      + apply Forall_app. split.
        * clear - Hm Hmk. induction Hm; simpl; constructor; auto.
          rewrite contains_append, Hmk. simpl.
          apply valid_name_contains; [assumption | reflexivity].
        * apply valid_names_contains; [exact Hu | reflexivity]. }
  split; [exact Hsplit|]. rewrite Hsplit. unfold segments.
  rewrite length_app. cbn [List.length]. rewrite length_app, length_map.
  destruct (Py.truthy base); simpl; lia.
Qed.

Lemma class_attribute_lists_the_segments_witness :
  plain_marker "fa-" = true
  /\ contains " " "fa-" = false
  /\ contains " " "fa" = false
  /\ bound "fa-" "fa" = Py.Ok (plain_processor "fa-" "fa")
  /\ Re.search (compiled_re (plain_processor "fa-" "fa")) "&fa-cog:2x:red,big;" 0
     = Some (Re.mkMatch 0 19 [("name", Some "cog"); ("mod", Some "2x");
                              ("user_mod", Some "red,big")])
  /\ exists name colons mods umods cls,
       well_formed name colons mods umods
       /\ String.substring 0 (19 - 0) "&fa-cog:2x:red,big;"
          = token_text "fa-" name colons mods umods
       /\ handleMatch (plain_processor "fa-" "fa")
            (Re.mkMatch 0 19 [("name", Some "cog"); ("mod", Some "2x");
                              ("user_mod", Some "red,big")])
            "&fa-cog:2x:red,big;"
          = Py.Ok (icon cls, 0, 19)
       /\ Py.split " " cls = segments "fa-" "fa" name mods umods
       /\ List.length (Py.split " " cls)
          = (if Py.truthy "fa" then 1 else 0) + 1
            + List.length mods + List.length umods.
Proof.
  split; [reflexivity|]. split; [reflexivity|]. split; [reflexivity|].
  split; [vm_compute; reflexivity|]. split; [vm_compute; reflexivity|].
  apply (class_attribute_lists_the_segments "fa-" "fa"
           (plain_processor "fa-" "fa") "&fa-cog:2x:red,big;" 0
           (Re.mkMatch 0 19 [("name", Some "cog"); ("mod", Some "2x");
                             ("user_mod", Some "red,big")])).
  - reflexivity.
  - reflexivity.
  - reflexivity.
  - vm_compute. reflexivity.
  - vm_compute. reflexivity.
Defined.

Lemma valid_name_prepend (w name : string) :
  Re.all_chars name_char w = true -> valid_name name = true ->
  valid_name (w ++ name) = true.
Proof.
  unfold valid_name. intros Hw Hn. apply andb_prop in Hn. destruct Hn as [Ht Hn].
  rewrite truthy_append, Ht, orb_true_r, all_chars_append, Hw, Hn. reflexivity.
Qed.

(** X6. A marker that extends another by name characters is shadowed by it:
    every token of the longer marker is also matched, at the same span, by
    the processor of the shorter one, which takes the extension for the
    start of the name. *)
Theorem longer_marker_is_shadowed :
  forall marker w base1 base2 p1 p2 pre mid name colons mods umods rest,
    plain_marker marker = true ->
    Re.all_chars name_char w = true ->
    bound marker base1 = Py.Ok p1 ->
    bound (marker ++ w) base2 = Py.Ok p2 ->
    well_formed name colons mods umods ->
    contains "&" mid = false ->
    exists s e,
      apply_pattern p2
        (pre ++ mid ++ token_text (marker ++ w) name colons mods umods ++ rest)
        (String.length pre)
      = Py.Ok (Some (icon (Py.join " "
                             (segments (marker ++ w) base2 name mods umods)),
                     s, e))
      /\ apply_pattern p1
           (pre ++ mid ++ token_text (marker ++ w) name colons mods umods ++ rest)
           (String.length pre)
         = Py.Ok (Some (icon (Py.join " "
                                (segments marker base1 (w ++ name) mods umods)),
                        s, e)).
Proof.
  intros marker w base1 base2 p1 p2 pre mid name colons mods umods rest
    Hplain Hw Hb1 Hb2 Hwf Hmid.
  assert (Hplain2 : plain_marker (marker ++ w) = true).
  { unfold plain_marker in *. rewrite all_chars_append, Hplain. simpl.
    revert Hw. apply all_chars_weaken.
    intros c Hc. destruct c as [[] [] [] [] [] [] [] []]; try reflexivity;
      discriminate Hc. }
  apply bound_plain_inv in Hb1; [subst p1 | exact Hplain].
  apply bound_plain_inv in Hb2; [subst p2 | exact Hplain2].
  assert (Htext : token_text (marker ++ w) name colons mods umods
                  = token_text marker (w ++ name) colons mods umods).
  { unfold token_text, token_body. rewrite !append_assoc. reflexivity. }
  assert (Hwf' : well_formed (w ++ name) colons mods umods).
  { destruct Hwf as (Hn & Hrest). split; [|exact Hrest].
    apply valid_name_prepend; assumption. }
  eexists. eexists. split.
  - apply apply_pattern_token; assumption.
  - rewrite Htext. apply apply_pattern_token; assumption.
Qed.

Lemma longer_marker_is_shadowed_witness :
  plain_marker "icon-" = true
  /\ Re.all_chars name_char "2-" = true
  /\ bound "icon-" "" = Py.Ok (plain_processor "icon-" "")
  /\ bound ("icon-" ++ "2-") "two" = Py.Ok (plain_processor "icon-2-" "two")
  /\ well_formed "x" 0 [] []
  /\ contains "&" "" = false
  /\ exists s e,
       apply_pattern (plain_processor "icon-2-" "two")
         ("" ++ "" ++ token_text ("icon-" ++ "2-") "x" 0 [] [] ++ "")
         (String.length "")
       = Py.Ok (Some (icon (Py.join " " (segments ("icon-" ++ "2-") "two" "x" [] [])),
                      s, e))
       /\ apply_pattern (plain_processor "icon-" "")
            ("" ++ "" ++ token_text ("icon-" ++ "2-") "x" 0 [] [] ++ "")
            (String.length "")
          = Py.Ok (Some (icon (Py.join " " (segments "icon-" "" ("2-" ++ "x") [] [])),
                         s, e)).
Proof.
  assert (Hwf : well_formed "x" 0 [] []).
  { unfold well_formed. repeat split; auto. }
  split; [reflexivity|]. split; [reflexivity|]. split; [vm_compute; reflexivity|].
  split; [vm_compute; reflexivity|]. split; [exact Hwf|]. split; [reflexivity|].
  apply (longer_marker_is_shadowed "icon-" "2-" "" "two").
  - reflexivity.
  - reflexivity.
  - vm_compute. reflexivity.
  - vm_compute. reflexivity.
  - exact Hwf.
  - reflexivity.
Defined.

(** ** Names in the registry *)

Lemma rstrip_hyphens (n : nat) : Py.rstrip "-" (hyphens n) = "".
Proof.
  induction n as [|n IH]; [reflexivity|].
  cbn [hyphens Py.rstrip]. rewrite IH. reflexivity.
Qed.

Lemma rstrip_append_hyphens (s : string) (n : nat) :
  Py.rstrip "-" (s ++ hyphens n) = Py.rstrip "-" s.
Proof.
  induction s as [|a s IH].
  - apply rstrip_hyphens.
  - change (String a s ++ hyphens n) with (String a (s ++ hyphens n)).
    cbn [Py.rstrip]. rewrite IH. reflexivity.
Qed.

(** X7. Two markers are registered under the same name exactly when they
    are one stem followed by hyphens only. *)
Theorem same_name_iff_same_stem :
  forall a b,
    pair_name a = pair_name b
    <-> exists stem n m, a = stem ++ hyphens n /\ b = stem ++ hyphens m.
Proof.
  intros a b. unfold pair_name. split.
  - intros H. apply append_inv_head in H.
    destruct (rstrip_spec a) as (n & Ha & _).
    destruct (rstrip_spec b) as (m & Hb & _).
    exists (Py.rstrip "-" a), n, m. split; [exact Ha | rewrite H; exact Hb].
  - intros (stem & n & m & -> & ->). rewrite !rstrip_append_hyphens. reflexivity.
Qed.

Lemma filter_deregister_other (A : Type) (reg : Registry.t A) (name name' : string) :
  name' <> name ->
  filter (fun e => String.eqb (Registry.e_name e) name')
    (Registry.deregister reg name)
  = filter (fun e => String.eqb (Registry.e_name e) name') reg.
Proof.
  intros Hne. unfold Registry.deregister.
  induction reg as [|e reg IH]; simpl; [reflexivity|].
  destruct (String.eqb_spec (Registry.e_name e) name) as [E|E]; simpl.
  - destruct (String.eqb_spec (Registry.e_name e) name'); [congruence | exact IH].
  - rewrite IH. reflexivity.
Qed.

Lemma filter_register_other (A : Type) (reg : Registry.t A) (item : A)
  (name name' : string) (priority : nat) :
  name' <> name ->
  filter (fun e => String.eqb (Registry.e_name e) name')
    (Registry.register reg item name priority)
  = filter (fun e => String.eqb (Registry.e_name e) name') reg.
Proof.
  intros Hne. unfold Registry.register.
  rewrite filter_app, filter_deregister_other by exact Hne. simpl.
  destruct (String.eqb_spec name name'); [congruence | apply app_nil_r].
Qed.

Lemma fold_register_pair_filter (name : string) (l : list (string * string)) :
  forall md md',
    fold_left register_pair l (Py.Ok md) = Py.Ok md' ->
    Forall (fun q => pair_name (fst q) <> name) l ->
    filter (fun e => String.eqb (Registry.e_name e) name) (inlinePatterns md')
    = filter (fun e => String.eqb (Registry.e_name e) name) (inlinePatterns md).
Proof.
  induction l as [|q l IH]; intros md md' H Hl; cbn [fold_left] in H.
  - injection H as <-. reflexivity.
  - inversion Hl as [|? ? Hq Hl']; subst.
    rewrite register_pair_compile in H.
    destruct (Re.compile ("&" ++ fst q ++ ICON_RE)) as [re|e].
    + rewrite (IH _ _ H Hl'). cbn [inlinePatterns].
      apply filter_register_other. congruence.
    + rewrite fold_register_raise in H. discriminate H.
Qed.

(** X8. Setup leaves alone what it does not name: when [extendMarkdown]
    returns, the entries of every name other than [iconfonts] and the names
    of the pairs are the same as before, item and priority, and so is what
    a lookup of that name gives. *)
Theorem other_processors_untouched :
  forall self md md' name,
    extendMarkdown self md = Py.Ok md' ->
    name <> "iconfonts" ->
    Forall (fun q => pair_name (fst q) <> name) (prefix_base_pairs self) ->
    filter (fun e => String.eqb (Registry.e_name e) name) (inlinePatterns md')
    = filter (fun e => String.eqb (Registry.e_name e) name) (inlinePatterns md)
    /\ Registry.get (inlinePatterns md') name = Registry.get (inlinePatterns md) name.
Proof.
  intros self md md' name H Hne Hl.
  assert (Hf : filter (fun e => String.eqb (Registry.e_name e) name)
                 (inlinePatterns md')
               = filter (fun e => String.eqb (Registry.e_name e) name)
                   (inlinePatterns md)).
  { unfold extendMarkdown, IconFontsPattern_init in H.
    destruct (Re.compile ("&" ++ prefix self ++ ICON_RE)) as [re|e];
      cbn [Py.bind] in H; [|discriminate H].
    rewrite (fold_register_pair_filter name _ _ _ H Hl). cbn [inlinePatterns].
    apply filter_register_other. exact Hne. }
  split; [exact Hf|].
  assert (Hget : forall reg : Registry.t IconFontsPattern,
            Registry.get reg name
            = match filter (fun e => String.eqb (Registry.e_name e) name) reg with
              | [] => None
              | e :: _ => Some (Registry.e_item e)
              end).
  { induction reg as [|e reg IHr]; simpl; [reflexivity|].
    destruct (String.eqb (Registry.e_name e) name); [reflexivity | exact IHr]. }
  rewrite !Hget, Hf. reflexivity.
Qed.

Lemma other_processors_untouched_witness :
  exists md',
    extendMarkdown (mkConfig "icon-" "" [("fa-", "fa")])
      (mkMarkdown [Registry.mkEntry "entity" (plain_processor "x" "") 90])
    = Py.Ok md'
    /\ "entity" <> "iconfonts"
    /\ filter (fun e => String.eqb (Registry.e_name e) "entity") (inlinePatterns md')
       = filter (fun e => String.eqb (Registry.e_name e) "entity")
           [Registry.mkEntry "entity" (plain_processor "x" "") 90]
    /\ Registry.get (inlinePatterns md') "entity"
       = Registry.get [Registry.mkEntry "entity" (plain_processor "x" "") 90]
           "entity".
Proof.
  eexists. split; [vm_compute; reflexivity|]. split; [discriminate|].
  apply (other_processors_untouched (mkConfig "icon-" "" [("fa-", "fa")])
           (mkMarkdown [Registry.mkEntry "entity" (plain_processor "x" "") 90])).
  - vm_compute. reflexivity.
  - discriminate.
  - repeat constructor. discriminate.
Defined.

(** X9. When the markers are plain and the pairs have different
    registration names, setup succeeds and every pair is found under its
    name afterwards, once, with the processor of its marker and base. *)
Theorem every_pair_can_be_looked_up :
  forall self md,
    plain_marker (prefix self) = true ->
    Forall (fun q => plain_marker (fst q) = true) (prefix_base_pairs self) ->
    NoDup (map (fun q => pair_name (fst q)) (prefix_base_pairs self)) ->
    exists md',
      extendMarkdown self md = Py.Ok md'
      /\ forall marker b,
           In (marker, b) (prefix_base_pairs self) ->
           exists q,
             bound marker b = Py.Ok q
             /\ Registry.get (inlinePatterns md') (pair_name marker) = Some q
             /\ count_occ string_dec
                  (Registry.registered_names (inlinePatterns md'))
                  (pair_name marker)
                = 1.
Proof.
  intros self md Hp Hl Hnd. rewrite extendMarkdown_plain by assumption.
  eexists. split; [reflexivity|]. intros marker b Hin.
  exists (plain_processor marker b).
  rewrite Forall_forall in Hl. pose proof (Hl _ Hin) as Hplain. cbn [fst] in Hplain.
  split; [apply bound_plain; exact Hplain|].
  apply in_split in Hin. destruct Hin as (l1 & l3 & Hpairs).
  rewrite Hpairs in Hnd |- *. cbn [inlinePatterns].
  rewrite fold_left_app. cbn [fold_left].
  rewrite map_app in Hnd. apply NoDup_app_remove_l in Hnd.
  cbn [map fst] in Hnd. inversion Hnd as [|? ? Hnotin _]; subst.
  assert (Hl3 : Forall (fun q => pair_name (fst q) <> pair_name marker) l3).
  { apply Forall_forall. intros q Hq E. apply Hnotin. rewrite <- E.
    apply (in_map (fun q => pair_name (fst q))). exact Hq. }
  match goal with
  | |- context [fold_left register_plain l3 ?r] =>
      destruct (fold_register_plain_other (pair_name marker) l3 r Hl3) as [-> ->]
  end.
  unfold register_plain. cbn [fst snd].
  rewrite get_register_same, count_register_same. split; reflexivity.
Qed.

Lemma every_pair_can_be_looked_up_witness :
  plain_marker "icon-" = true
  /\ NoDup (map (fun q : string * string => pair_name (fst q))
              [("fa-", "fa"); ("glyphicon-", "glyphicon")])
  /\ exists md',
       extendMarkdown
         (mkConfig "icon-" "" [("fa-", "fa"); ("glyphicon-", "glyphicon")])
         (mkMarkdown [])
       = Py.Ok md'
       /\ forall marker b,
            In (marker, b) [("fa-", "fa"); ("glyphicon-", "glyphicon")] ->
            exists q,
              bound marker b = Py.Ok q
              /\ Registry.get (inlinePatterns md') (pair_name marker) = Some q
              /\ count_occ string_dec
                   (Registry.registered_names (inlinePatterns md'))
                   (pair_name marker)
                 = 1.
Proof.
  assert (Hnd : NoDup (map (fun q : string * string => pair_name (fst q))
                         [("fa-", "fa"); ("glyphicon-", "glyphicon")])).
  { cbn [map fst]. constructor.
    - intros [E|[]]. discriminate E.
    - constructor; [intros [] | constructor]. }
  split; [reflexivity|]. split; [exact Hnd|].
  apply (every_pair_can_be_looked_up
           (mkConfig "icon-" "" [("fa-", "fa"); ("glyphicon-", "glyphicon")])
           (mkMarkdown [])).
  - reflexivity.
  - repeat constructor.
  - exact Hnd.
Defined.

Lemma deregister_fresh (A : Type) (reg : Registry.t A) (name : string) :
  ~ In name (Registry.registered_names reg) -> Registry.deregister reg name = reg.
Proof.
  unfold Registry.deregister, Registry.registered_names.
  induction reg as [|e reg IH]; simpl; intros H; [reflexivity|].
  destruct (String.eqb_spec (Registry.e_name e) name) as [E|E].
  - exfalso. apply H. left. exact E.
  - simpl. rewrite IH; [reflexivity|]. intros Hin. apply H. right. exact Hin.
Qed.

Lemma fold_register_plain_fresh (l : list (string * string)) :
  forall reg,
    NoDup (map (fun q => pair_name (fst q)) l) ->
    (forall q, In q l -> ~ In (pair_name (fst q)) (Registry.registered_names reg)) ->
    fold_left register_plain l reg
    = List.app reg
        (map (fun q => Registry.mkEntry (pair_name (fst q))
                         (plain_processor (fst q) (snd q)) 175) l).
Proof.
  induction l as [|q l IH]; intros reg Hnd Hfresh; cbn [fold_left map].
  - symmetry. apply app_nil_r.
  - inversion Hnd as [|? ? Hnotin Hnd']; subst.
    unfold register_plain at 2. unfold Registry.register.
    rewrite deregister_fresh by (apply Hfresh; left; reflexivity).
    rewrite IH.
    + rewrite <- app_assoc. reflexivity.
    + exact Hnd'.
    + intros q' Hq' Hin. unfold Registry.registered_names in Hin.
      rewrite map_app in Hin. apply in_app_or in Hin. destruct Hin as [Hin|Hin].
      * apply (Hfresh q'); [right; exact Hq' | exact Hin].
      * cbn [map Registry.e_name] in Hin. destruct Hin as [E|[]].
        apply Hnotin. rewrite E.
        apply (in_map (fun q => pair_name (fst q))). exact Hq'.
Qed.

(** X10. On a registry that holds none of the names, with plain markers
    and pairs of different names, setup appends the default processor as
    [iconfonts] and then one processor for each pair in the order of
    [prefix_base_pairs], all at priority 175, and changes nothing else. *)
Theorem fresh_registry_gets_entries_in_order :
  forall self md,
    plain_marker (prefix self) = true ->
    Forall (fun q => plain_marker (fst q) = true) (prefix_base_pairs self) ->
    NoDup (map (fun q => pair_name (fst q)) (prefix_base_pairs self)) ->
    ~ In "iconfonts" (Registry.registered_names (inlinePatterns md)) ->
    (forall q, In q (prefix_base_pairs self) ->
       ~ In (pair_name (fst q)) (Registry.registered_names (inlinePatterns md))) ->
    extendMarkdown self md
    = Py.Ok (mkMarkdown
               (List.app (inlinePatterns md)
                  (Registry.mkEntry "iconfonts"
                     (plain_processor (prefix self) (base self)) 175
                   :: map (fun q => Registry.mkEntry (pair_name (fst q))
                                      (plain_processor (fst q) (snd q)) 175)
                        (prefix_base_pairs self)))).
Proof.
  intros self md Hp Hl Hnd Hdef Hfresh.
  rewrite extendMarkdown_plain by assumption. f_equal. f_equal.
  unfold Registry.register at 1. rewrite deregister_fresh by exact Hdef.
  rewrite fold_register_plain_fresh.
  - rewrite <- app_assoc. reflexivity.
  - exact Hnd.
  - intros q Hq Hin. unfold Registry.registered_names in Hin.
    rewrite map_app in Hin. apply in_app_or in Hin. destruct Hin as [Hin|Hin].
    + apply (Hfresh q Hq). exact Hin.
    + cbn [map Registry.e_name] in Hin. destruct Hin as [E|[]].
      apply (pair_name_not_default (fst q)). symmetry. exact E.
Qed.

Lemma fresh_registry_gets_entries_in_order_witness :
  plain_marker "icon-" = true
  /\ NoDup (map (fun q : string * string => pair_name (fst q))
              [("fa-", "fa"); ("glyphicon-", "glyphicon")])
  /\ extendMarkdown
       (mkConfig "icon-" "" [("fa-", "fa"); ("glyphicon-", "glyphicon")])
       (mkMarkdown [])
     = Py.Ok (mkMarkdown
                (List.app []
                   (Registry.mkEntry "iconfonts" (plain_processor "icon-" "") 175
                    :: map (fun q => Registry.mkEntry (pair_name (fst q))
                                       (plain_processor (fst q) (snd q)) 175)
                         [("fa-", "fa"); ("glyphicon-", "glyphicon")]))).
Proof.
  assert (Hnd : NoDup (map (fun q : string * string => pair_name (fst q))
                         [("fa-", "fa"); ("glyphicon-", "glyphicon")])).
  { cbn [map fst]. constructor.
    - intros [E|[]]. discriminate E.
    - constructor; [intros [] | constructor]. }
  split; [reflexivity|]. split; [exact Hnd|].
  apply (fresh_registry_gets_entries_in_order
           (mkConfig "icon-" "" [("fa-", "fa"); ("glyphicon-", "glyphicon")])
           (mkMarkdown [])).
  - reflexivity.
  - repeat constructor.
  - exact Hnd.
  - intros [].
  - intros q _ [].
Defined.

(** ** Constructing the extension *)

Lemma setConfigs_raise (l : list (string * option_value)) (e : Py.exn) :
  fold_left (fun acc kv => cfg <- acc ;; setConfig cfg (fst kv) (snd kv)) l
    (Py.Raise e)
  = Py.Raise e.
Proof. induction l as [|kv l IH]; [reflexivity | exact IH]. Qed.

Lemma setConfig_well_typed (cfg : Config) (kv : string * option_value) :
  well_typed kv = true -> exists cfg', setConfig cfg (fst kv) (snd kv) = Py.Ok cfg'.
Proof.
  destruct kv as [k [s|d]]; unfold well_typed, setConfig; cbn [fst snd]; intros H.
  - destruct (String.eqb k "prefix"); [eauto|].
    destruct (String.eqb k "base"); [eauto | discriminate H].
  - destruct (String.eqb_spec k "prefix_base_pairs") as [->|]; [|discriminate H].
    cbn. eauto.
Qed.

Lemma setConfigs_well_typed (l : list (string * option_value)) :
  forall cfg, forallb well_typed l = true ->
    exists cfg', setConfigs cfg l = Py.Ok cfg'.
Proof.
  unfold setConfigs, Py.dict_items.
  induction l as [|kv l IH]; intros cfg H; cbn [fold_left].
  - eauto.
  - simpl in H. apply andb_prop in H. destruct H as [Hkv Hl].
    destruct (setConfig_well_typed cfg kv Hkv) as (cfg' & E).
    cbn [Py.bind]. rewrite E. apply IH. exact Hl.
Qed.

(** X11. A keyword argument that is not one of [prefix], [base] and
    [prefix_base_pairs] makes the construction raise [KeyError] with that
    key, when the arguments before it are options with values of their
    type; the arguments after it are not looked at. *)
Theorem unknown_option_raises_KeyError :
  forall before key value after,
    forallb well_typed before = true ->
    known_option key = false ->
    makeExtension (List.app before ((key, value) :: after))
    = Py.Raise (Py.KeyError key).
Proof.
  intros before key value after Hb Hk.
  unfold makeExtension, IconFontsExtension_init.
  destruct (setConfigs_well_typed before default_config Hb) as (cfg & E).
  unfold setConfigs, Py.dict_items in *.
  rewrite fold_left_app, E. cbn [fold_left Py.bind fst snd].
  unfold known_option in Hk.
  apply orb_false_elim in Hk. destruct Hk as [Hk H3].
  apply orb_false_elim in Hk. destruct Hk as [H1 H2].
  unfold setConfig. rewrite H1, H2, H3. apply setConfigs_raise.
Qed.

Lemma unknown_option_raises_KeyError_witness :
  forallb well_typed [("base", OStr "fa")] = true
  /\ known_option "prefx" = false
  /\ makeExtension
       (List.app [("base", OStr "fa")]
          (("prefx", OStr "fa-") :: [("prefix", OStr "fa-")]))
     = Py.Raise (Py.KeyError "prefx").
Proof.
  split; [reflexivity|]. split; [reflexivity|].
  apply (unknown_option_raises_KeyError [("base", OStr "fa")] "prefx"
           (OStr "fa-") [("prefix", OStr "fa-")]).
  - reflexivity.
  - reflexivity.
Defined.

Lemma dict_get_notin (V : Type) (d : Py.dict V) (k : string) :
  ~ In k (map fst d) -> Py.dict_get d k = None.
Proof.
  induction d as [|[k' v] d IH]; simpl; intros H; [reflexivity|].
  destruct (String.eqb_spec k' k) as [E|E].
  - exfalso. apply H. left. exact E.
  - apply IH. intros Hin. apply H. right. exact Hin.
Qed.

Lemma setConfigs_fields (l : list (string * option_value)) :
  forall cfg,
    NoDup (map fst l) -> forallb well_typed l = true ->
    setConfigs cfg l
    = Py.Ok (mkConfig
               match Py.dict_get l "prefix" with
               | Some (OStr s) => s
               | _ => prefix cfg
               end
               match Py.dict_get l "base" with
               | Some (OStr s) => s
               | _ => base cfg
               end
               match Py.dict_get l "prefix_base_pairs" with
               | Some (ODict d) => d
               | _ => prefix_base_pairs cfg
               end).
Proof.
  unfold setConfigs, Py.dict_items.
  induction l as [|[k v] l IH]; intros cfg Hnd Hl; cbn [fold_left].
  - destruct cfg; reflexivity.
  - inversion Hnd as [|? ? Hnotin Hnd']; subst.
    simpl in Hl. apply andb_prop in Hl. destruct Hl as [Hkv Hl].
    cbn [Py.bind fst snd]. pose proof (dict_get_notin _ l k Hnotin) as Hnone.
    unfold well_typed in Hkv. cbn [fst snd] in Hkv. unfold setConfig.
    destruct v as [s|d].
    + destruct (String.eqb_spec k "prefix") as [->|Hk1].
      * rewrite (IH _ Hnd' Hl), Hnone. cbn. reflexivity.
      * destruct (String.eqb_spec k "base") as [->|Hk2]; [|discriminate Hkv].
        rewrite (IH _ Hnd' Hl), Hnone. cbn. reflexivity.
    + destruct (String.eqb_spec k "prefix_base_pairs") as [->|Hk3];
        [|discriminate Hkv].
      cbn [String.eqb Ascii.eqb Bool.eqb].
      rewrite (IH _ Hnd' Hl), Hnone. cbn. reflexivity.
Qed.

(** X12. With distinct keys that are options with values of their type,
    the construction succeeds: every option given has the value given, and
    every option left out keeps its default, ["icon-"], [""] and the empty
    [dict]. *)
Theorem options_over_defaults :
  forall kwargs,
    NoDup (map fst kwargs) ->
    forallb well_typed kwargs = true ->
    makeExtension kwargs
    = Py.Ok (mkConfig
               match Py.dict_get kwargs "prefix" with
               | Some (OStr s) => s
               | _ => "icon-"
               end
               match Py.dict_get kwargs "base" with
               | Some (OStr s) => s
               | _ => ""
               end
               match Py.dict_get kwargs "prefix_base_pairs" with
               | Some (ODict d) => d
               | _ => []
               end).
Proof.
  intros kwargs Hnd Hl. unfold makeExtension, IconFontsExtension_init.
  rewrite setConfigs_fields by assumption. reflexivity.
Qed.

Lemma options_over_defaults_witness :
  NoDup (map fst [("base", OStr "fa"); ("prefix", OStr "fa-")])
  /\ forallb well_typed [("base", OStr "fa"); ("prefix", OStr "fa-")] = true
  /\ makeExtension [("base", OStr "fa"); ("prefix", OStr "fa-")]
     = Py.Ok (mkConfig
                match Py.dict_get [("base", OStr "fa"); ("prefix", OStr "fa-")]
                        "prefix" with
                | Some (OStr s) => s
                | _ => "icon-"
                end
                match Py.dict_get [("base", OStr "fa"); ("prefix", OStr "fa-")]
                        "base" with
                | Some (OStr s) => s
                | _ => ""
                end
                match Py.dict_get [("base", OStr "fa"); ("prefix", OStr "fa-")]
                        "prefix_base_pairs" with
                | Some (ODict d) => d
                | _ => []
                end).
Proof.
  assert (Hnd : NoDup (map fst [("base", OStr "fa"); ("prefix", OStr "fa-")])).
  { cbn [map fst]. constructor.
    - intros [E|[]]. discriminate E.
    - constructor; [intros [] | constructor]. }
  split; [exact Hnd|]. split; [reflexivity|].
  apply (options_over_defaults [("base", OStr "fa"); ("prefix", OStr "fa-")]).
  - exact Hnd.
  - reflexivity.
Defined.
